(** * SysPulse: the utilization samplers and the metric store

    A shallow embedding of [src/monitor.cpp] (CpuMonitor, RamMonitor) and of
    [src/db_manager.cpp] (DatabaseManager, the revision with [connect]),
    together with the properties of the samplers and of the store.

    - C++ [double] is IEEE-754 binary64, embedded as [spec_float] with
      precision 53 and maximal exponent 1024 (the bit-exact specification the
      Standard Library gives of binary64 arithmetic).
    - [ULONGLONG] and [ULARGE_INTEGER.QuadPart] are unsigned 64-bit integers,
      embedded as [Z] with the wrap-around modulo [2^64] written out.
    - The Win32 calls ([GetSystemTimes], [GlobalMemoryStatusEx]), the clock and
      the SQLite library are the environment: every call of a method receives
      the outcome of the calls it makes as an argument. *)

From Stdlib Require Import ZArith QArith Qpower Qabs Lia List String Bool.
From Stdlib Require Import Floats.SpecFloat.
Import ListNotations.

Local Open Scope Z_scope.

(* ================================================================== *)
(** ** IEEE-754 binary64 *)
(* ================================================================== *)

Module Double.

Definition prec : Z := 53.
Definition emax : Z := 1024.

Definition double : Type := spec_float.

(** Conversion of an integer to [double], rounding to nearest, ties to
    even: [(double)x] and [static_cast<double>(x)] on an integer [x]. *)
Definition of_Z (z : Z) : double := binary_normalize prec emax z 0 false.

Definition sub (x y : double) : double := SFsub prec emax x y.
Definition mul (x y : double) : double := SFmul prec emax x y.
Definition div (x y : double) : double := SFdiv prec emax x y.
Definition leb (x y : double) : bool := SFleb x y.
Definition ltb (x y : double) : bool := SFltb x y.
Definition eqb (x y : double) : bool := SFeqb x y.

(** The literals [0.0], [1.0] and [100.0]. *)
Definition zero : double := S754_zero false.
Definition one : double := Eval vm_compute in of_Z 1.
Definition hundred : double := Eval vm_compute in of_Z 100.

(** [std::isnan] *)
Definition is_nan (x : double) : bool :=
  match x with
  | S754_nan => true
  | _ => false
  end.

(** The number a [double] stands for ([0] for infinities and NaN). *)
Definition to_Q (x : double) : Q :=
  match x with
  | S754_finite s m e =>
    let v := (inject_Z (Zpos m) * Qpower (2 # 1) e)%Q in
    if s then Qopp v else v
  | _ => 0%Q
  end.

(** *** Vocabulary of the rounding proofs *)

(** Where the fraction [N / D] lies between its integer part and the next
    integer. *)
Definition loc (N D : Z) : location :=
  if N mod D =? 0 then loc_Exact else loc_Inexact (2 * (N mod D) ?= D).

(** The integer part of [N / D] with the round and sticky bits. *)
Definition rec_of (N D : Z) : shr_record :=
  shr_record_of_loc (N / D) (loc N D).

(** [N / D] rounded to the nearest integer, ties to even. *)
Definition rne (N D : Z) : Z := round_nearest_even (N / D) (loc N D).

(** A non-negative finite [double] counted in units of [2 ^ -1074], the
    smallest positive [double]. *)
Definition ulps (x : double) : Z :=
  match x with
  | S754_finite false m e => Zpos m * 2 ^ (e + 1074)
  | _ => 0
  end.

Definition finite_nonneg (x : double) : bool :=
  match x with
  | S754_zero _ => true
  | S754_finite false _ _ => true
  | _ => false
  end.

(** A zero or a positive finite number in canonical form. *)
Definition good (x : double) : Prop :=
  finite_nonneg x = true /\ valid_binary prec emax x = true.

(** The integer nearest to [z] (ties to even) among those with at most 53
    significant bits: the value of [(double)z]. *)
Definition nearest (z : Z) : Z :=
  let k := Z.max 0 (Zdigits2 z - 53) in rne z (2 ^ k) * 2 ^ k.

End Double.

(* ================================================================== *)
(** ** Win32 data *)
(* ================================================================== *)

Module Win32.

(** [DWORD] is an unsigned 32-bit integer, [ULONGLONG] an unsigned 64-bit
    one. *)
Definition DWORD_range (z : Z) : Prop := 0 <= z < 2 ^ 32.
Definition wrap64 (z : Z) : Z := z mod 2 ^ 64.

Record FILETIME := mkFILETIME {
  dwLowDateTime : Z;
  dwHighDateTime : Z
}.

(** [ULARGE_INTEGER] is a union of two [DWORD]s, [LowPart] and [HighPart],
    with one 64-bit [QuadPart]. *)
Record ULARGE_INTEGER := mkULARGE {
  LowPart : Z;
  HighPart : Z
}.

(** Reading [u.QuadPart]: the two 32-bit words as one unsigned 64-bit
    integer. *)
Definition QuadPart (u : ULARGE_INTEGER) : Z :=
  LowPart u mod 2 ^ 32 + (HighPart u mod 2 ^ 32) * 2 ^ 32.

(** Writing [u.QuadPart = q]. *)
Definition of_QuadPart (q : Z) : ULARGE_INTEGER :=
  {| LowPart := q mod 2 ^ 32; HighPart := (q / 2 ^ 32) mod 2 ^ 32 |}.

(** Only the field of [MEMORYSTATUSEX] that the monitor reads. *)
Record MEMORYSTATUSEX := mkMEMORYSTATUSEX {
  dwMemoryLoad : Z
}.

End Win32.

(* ================================================================== *)
(** ** monitor.hpp / monitor.cpp *)
(* ================================================================== *)

Module Monitor.
Import Win32.

Record Metric := mkMetric {
  component : string;
  metric : string;
  value : Double.double;
  unit : string;
  timestamp : Z
}.

(** The three snapshots of the previous reading. *)
Record CpuMonitor := mkCpuMonitor {
  lastIdleTime : ULARGE_INTEGER;
  lastKernelTime : ULARGE_INTEGER;
  lastUserTime : ULARGE_INTEGER
}.

(** [CpuMonitor::CpuMonitor()] *)
Definition CpuMonitor_new : CpuMonitor :=
  {| lastIdleTime := of_QuadPart 0;
     lastKernelTime := of_QuadPart 0;
     lastUserTime := of_QuadPart 0 |}.

(** [CpuMonitor::fileTimeToInt] *)
Definition fileTimeToInt (ft : FILETIME) : ULARGE_INTEGER :=
  {| LowPart := dwLowDateTime ft; HighPart := dwHighDateTime ft |}.

(** What [GetSystemTimes(&idleTime, &kernelTime, &userTime)] delivers:
    [None] when the call returns [FALSE]. *)
Record SystemTimes := mkSystemTimes {
  idleTime : FILETIME;
  kernelTime : FILETIME;
  userTime : FILETIME
}.

(** The baseline that a reading leaves in the monitor. *)
Definition baseline_of (r : SystemTimes) : CpuMonitor :=
  {| lastIdleTime := fileTimeToInt (idleTime r);
     lastKernelTime := fileTimeToInt (kernelTime r);
     lastUserTime := fileTimeToInt (userTime r) |}.

(** The three unsigned 64-bit differences of [getMetric]. *)
Definition deltaIdle (self : CpuMonitor) (r : SystemTimes) : Z :=
  wrap64 (QuadPart (fileTimeToInt (idleTime r)) - QuadPart (lastIdleTime self)).
Definition deltaKernel (self : CpuMonitor) (r : SystemTimes) : Z :=
  wrap64 (QuadPart (fileTimeToInt (kernelTime r)) - QuadPart (lastKernelTime self)).
Definition deltaUser (self : CpuMonitor) (r : SystemTimes) : Z :=
  wrap64 (QuadPart (fileTimeToInt (userTime r)) - QuadPart (lastUserTime self)).
Definition totalSystem (self : CpuMonitor) (r : SystemTimes) : Z :=
  wrap64 (deltaKernel self r + deltaUser self r).

(** The result of one call: the returned [std::optional<Metric>], the
    monitor after the call, and the divisors of the floating-point
    divisions the call has evaluated, in order (a ghost trace: it records
    what the call computed and changes nothing). *)
Record Outcome := mkOutcome {
  returned : option Metric;
  after : CpuMonitor;
  divisors : list Double.double
}.

(** [(1.0 - ((double)deltaIdle / (double)totalSystem)) * 100.0] *)
Definition usage (dIdle total : Z) : Double.double :=
  Double.mul
    (Double.sub Double.one (Double.div (Double.of_Z dIdle) (Double.of_Z total)))
    Double.hundred.

(** [m.value = v] *)
Definition set_value (m : Metric) (v : Double.double) : Metric :=
  {| component := component m; metric := metric m; value := v;
     unit := unit m; timestamp := timestamp m |}.

(** [CpuMonitor::getMetric]; [now] is the clock in seconds since the epoch,
    [os] the outcome of [GetSystemTimes].  The field [value] of the local
    [m] is not initialized before it is assigned; it stands as [0.0] until
    then and is never read. *)
Definition getMetric (now : Z) (os : option SystemTimes) (self : CpuMonitor)
  : Outcome :=
  let m := {| component := "CPU"; metric := "Usage"; value := Double.zero;
              unit := "%"; timestamp := now |} in
  match os with
  | None => {| returned := None; after := self; divisors := [] |}
  | Some r =>
    if QuadPart (lastIdleTime self) =? 0 then
      {| returned := None; after := baseline_of r; divisors := [] |}
    else
      let dIdle := deltaIdle self r in
      let total := totalSystem self r in
      if total =? 0 then
        {| returned := Some (set_value m Double.zero);
           after := baseline_of r; divisors := [] |}
      else
        {| returned := Some (set_value m (usage dIdle total));
           after := baseline_of r;
           divisors := [Double.of_Z total] |}
  end.

(** A run of the sampler: the calls of a driver, one per tick, each with
    its clock value and the outcome of its OS call.  Returns what every
    call returned and the monitor after the last one. *)
Fixpoint run (ticks : list (Z * option SystemTimes)) (self : CpuMonitor)
  : list (option Metric) * CpuMonitor :=
  match ticks with
  | [] => ([], self)
  | (now, os) :: rest =>
    let o := getMetric now os self in
    let '(outs, final) := run rest (after o) in
    (returned o :: outs, final)
  end.

(** [RamMonitor::getMetric]; [os] is the outcome of
    [GlobalMemoryStatusEx(&memInfo)], [None] when it returns [FALSE]. *)
Definition RamMonitor_getMetric (now : Z) (os : option MEMORYSTATUSEX)
  : option Metric :=
  match os with
  | None => None
  | Some memInfo =>
    Some {| component := "RAM"; metric := "Usage";
            value := Double.of_Z (dwMemoryLoad memInfo);
            unit := "%"; timestamp := now |}
  end.

(** A reading of small tick counts (the high words are zero). *)
Definition reading (idle kernel user : Z) : SystemTimes :=
  {| idleTime := {| dwLowDateTime := idle; dwHighDateTime := 0 |};
     kernelTime := {| dwLowDateTime := kernel; dwHighDateTime := 0 |};
     userTime := {| dwLowDateTime := user; dwHighDateTime := 0 |} |}.

End Monitor.

(* ================================================================== *)
(** ** The SQLite library, as the store sees it *)
(* ================================================================== *)

Module Sqlite.

(** Result codes of [sqlite3.h]. *)
Definition SQLITE_OK : Z := 0.
Definition SQLITE_ERROR : Z := 1.
Definition SQLITE_BUSY : Z := 5.
Definition SQLITE_CONSTRAINT : Z := 19.
Definition SQLITE_MISUSE : Z := 21.
Definition SQLITE_DONE : Z := 101.

(** A connection handle [sqlite3*] and a statement handle [sqlite3_stmt*];
    the null pointer is [None]. *)
Definition sqlite3 : Type := nat.

(** One row of the table [metrics] (the [id] is its position). *)
Record Row := mkRow {
  row_component : string;
  row_metric : string;
  row_value : Double.double;
  row_unit : string;
  row_timestamp : Z
}.

(** A prepared [INSERT] with its five positional parameters, unbound
    ([None], SQL NULL) after [sqlite3_prepare_v2]. *)
Record sqlite3_stmt := mkStmt {
  stmt_id : nat;
  bound1 : option string;
  bound2 : option string;
  bound3 : option Double.double;
  bound4 : option string;
  bound5 : option Z
}.

(** The library and the database file behind it: the connection handles
    that are allocated and not yet closed, the statements that are
    prepared and not yet finalized, the error messages handed out and not
    yet freed, and the content of the file. *)
Record World := mkWorld {
  connections : list sqlite3;
  next_connection : sqlite3;
  statements : list nat;
  next_statement : nat;
  messages : nat;
  has_metrics : bool;
  metrics : list Row
}.

(** What the library answers to the calls of one method: the environment
    chooses the result codes (a locked file, a full disk, a file that is
    not a database, ...). *)
Record Answers := mkAnswers {
  open_rc : Z;
  open_allocates : bool;  (* on failure: is a handle written to [*ppDb]? *)
  exec_rc : Z;
  prepare_rc : Z;
  step_rc : Z
}.

Definition metrics_ddl : string :=
  "CREATE TABLE IF NOT EXISTS metrics (id INTEGER PRIMARY KEY AUTOINCREMENT,component TEXT NOT NULL, metric TEXT NOT NULL,value REAL NOT NULL,unit TEXT NOT NULL,timestamp INTEGER NOT NULL);".

Definition metrics_insert : string :=
  "INSERT INTO metrics (component, metric, value, unit, timestamp) VALUES (?, ?, ?, ?, ?);".

Definition is_open (h : sqlite3) (w : World) : bool :=
  existsb (Nat.eqb h) (connections w).

Definition allocate (w : World) : sqlite3 * World :=
  (next_connection w,
   {| connections := next_connection w :: connections w;
      next_connection := S (next_connection w);
      statements := statements w; next_statement := next_statement w;
      messages := messages w;
      has_metrics := has_metrics w; metrics := metrics w |}).

(** [sqlite3_open(path, &db)]: the result code and what is written to
    [db].  On success a handle is always written; on failure a handle is
    usually written too and has to be closed, and null is written when the
    library could not allocate it. *)
Definition sqlite3_open (path : string) (a : Answers) (w : World)
  : Z * option sqlite3 * World :=
  if open_rc a =? SQLITE_OK then
    let '(h, w') := allocate w in (SQLITE_OK, Some h, w')
  else if open_allocates a then
    let '(h, w') := allocate w in (open_rc a, Some h, w')
  else (open_rc a, None, w).

(** [sqlite3_close(db)] *)
Definition sqlite3_close (h : sqlite3) (w : World) : World :=
  {| connections := filter (fun h' => negb (Nat.eqb h h')) (connections w);
     next_connection := next_connection w;
     statements := statements w; next_statement := next_statement w;
     messages := messages w;
     has_metrics := has_metrics w; metrics := metrics w |}.

(** [sqlite3_exec(db, sql, 0, 0, &errMsg)] on the schema statement: the
    result code, whether a message has been written to [errMsg], and the
    world.  When it succeeds the table exists and the rows are as before;
    when it fails nothing has changed and an error message has been
    allocated. *)
Definition sqlite3_exec (db : option sqlite3) (sql : string) (a : Answers)
    (w : World) : Z * bool * World :=
  match db with
  | None => (SQLITE_MISUSE, false, w)
  | Some h =>
    if negb (is_open h w) then (SQLITE_MISUSE, false, w)
    else if negb (String.eqb sql metrics_ddl) then (SQLITE_ERROR, false, w)
    else if exec_rc a =? SQLITE_OK then
      (SQLITE_OK, false,
       {| connections := connections w; next_connection := next_connection w;
          statements := statements w; next_statement := next_statement w;
          messages := messages w;
          has_metrics := true; metrics := metrics w |})
    else
      (exec_rc a, true,
       {| connections := connections w; next_connection := next_connection w;
          statements := statements w; next_statement := next_statement w;
          messages := S (messages w);
          has_metrics := has_metrics w; metrics := metrics w |})
  end.

(** [sqlite3_free(errMsg)]; it does nothing on a null pointer. *)
Definition sqlite3_free (errMsg : bool) (w : World) : World :=
  if errMsg then
    {| connections := connections w; next_connection := next_connection w;
       statements := statements w; next_statement := next_statement w;
       messages := pred (messages w);
       has_metrics := has_metrics w; metrics := metrics w |}
  else w.

(** [sqlite3_prepare_v2(db, sql, -1, &stmt, nullptr)] on the insert
    statement: it cannot succeed on a handle that is not open, nor while
    the table is missing. *)
Definition sqlite3_prepare_v2 (h : sqlite3) (sql : string) (a : Answers)
    (w : World) : Z * option sqlite3_stmt * World :=
  if negb (is_open h w) then (SQLITE_MISUSE, None, w)
  else if negb (String.eqb sql metrics_insert) then (SQLITE_ERROR, None, w)
  else if negb (has_metrics w) then (SQLITE_ERROR, None, w)
  else if prepare_rc a =? SQLITE_OK then
    (SQLITE_OK,
     Some {| stmt_id := next_statement w; bound1 := None; bound2 := None;
             bound3 := None; bound4 := None; bound5 := None |},
     {| connections := connections w; next_connection := next_connection w;
        statements := next_statement w :: statements w;
        next_statement := S (next_statement w);
        messages := messages w;
        has_metrics := has_metrics w; metrics := metrics w |})
  else (prepare_rc a, None, w).

(** The zero byte that ends a C string. *)
Definition NUL : Ascii.ascii := Ascii.zero.

(** The bytes in front of the first zero byte of a buffer: what a reader
    of a zero-terminated [const char*] sees. *)
Fixpoint c_text (buf : string) : string :=
  match buf with
  | EmptyString => EmptyString
  | String c rest =>
    if Ascii.eqb c NUL then EmptyString else String c (c_text rest)
  end.

(** [sqlite3_bind_text(stmt, i, buf, n, SQLITE_TRANSIENT)]: the statement
    keeps its own copy of the text, which is read up to the first zero
    byte when [n] is negative, and is the first [n] bytes otherwise. *)
Definition sqlite3_bind_text (s : sqlite3_stmt) (i : Z) (buf : string)
    (n : Z) : sqlite3_stmt :=
  let t := if n <? 0 then c_text buf else substring 0 (Z.to_nat n) buf in
  if i =? 1 then
    {| stmt_id := stmt_id s; bound1 := Some t; bound2 := bound2 s;
       bound3 := bound3 s; bound4 := bound4 s; bound5 := bound5 s |}
  else if i =? 2 then
    {| stmt_id := stmt_id s; bound1 := bound1 s; bound2 := Some t;
       bound3 := bound3 s; bound4 := bound4 s; bound5 := bound5 s |}
  else if i =? 4 then
    {| stmt_id := stmt_id s; bound1 := bound1 s; bound2 := bound2 s;
       bound3 := bound3 s; bound4 := Some t; bound5 := bound5 s |}
  else s.

(** [sqlite3_bind_double(stmt, 3, x)]: SQLite has no NaN, and binds SQL
    NULL in its place. *)
Definition sqlite3_bind_double (s : sqlite3_stmt) (i : Z) (x : Double.double)
  : sqlite3_stmt :=
  if i =? 3 then
    {| stmt_id := stmt_id s; bound1 := bound1 s; bound2 := bound2 s;
       bound3 := if Double.is_nan x then None else Some x;
       bound4 := bound4 s; bound5 := bound5 s |}
  else s.

(** [sqlite3_bind_int64(stmt, 5, n)] *)
Definition sqlite3_bind_int64 (s : sqlite3_stmt) (i : Z) (n : Z)
  : sqlite3_stmt :=
  if i =? 5 then
    {| stmt_id := stmt_id s; bound1 := bound1 s; bound2 := bound2 s;
       bound3 := bound3 s; bound4 := bound4 s; bound5 := Some n |}
  else s.

(** What a column of [REAL] affinity gives back for a number stored in it:
    a number without fractional part is kept as an integer, so that [-0.0]
    comes back as [0.0]; every other number comes back as it is. *)
Definition real_column (x : Double.double) : Double.double :=
  match x with
  | S754_zero _ => S754_zero false
  | _ => x
  end.

(** The row an insert statement stands for, as it is read back; none while
    a parameter of a [NOT NULL] column is SQL NULL. *)
Definition row_of_stmt (s : sqlite3_stmt) : option Row :=
  match bound1 s, bound2 s, bound3 s, bound4 s, bound5 s with
  | Some c, Some m, Some v, Some u, Some t =>
    Some {| row_component := c; row_metric := m; row_value := real_column v;
            row_unit := u; row_timestamp := t |}
  | _, _, _, _, _ => None
  end.

(** [sqlite3_step(stmt)] on an insert statement: [SQLITE_DONE] and the row
    is appended, or an error code and the table is as before (SQLite runs
    a single statement atomically).  A NULL in a [NOT NULL] column fails
    with [SQLITE_CONSTRAINT]. *)
Definition sqlite3_step (s : sqlite3_stmt) (a : Answers) (w : World)
  : Z * World :=
  if negb (existsb (Nat.eqb (stmt_id s)) (statements w)) then
    (SQLITE_MISUSE, w)
  else if step_rc a =? SQLITE_DONE then
    match row_of_stmt s with
    | Some r =>
      (SQLITE_DONE,
       {| connections := connections w; next_connection := next_connection w;
          statements := statements w; next_statement := next_statement w;
          messages := messages w;
          has_metrics := has_metrics w; metrics := metrics w ++ [r] |})
    | None => (SQLITE_CONSTRAINT, w)
    end
  else (step_rc a, w).

(** [sqlite3_finalize(stmt)] *)
Definition sqlite3_finalize (s : sqlite3_stmt) (w : World) : World :=
  {| connections := connections w; next_connection := next_connection w;
     statements := filter (fun i => negb (Nat.eqb (stmt_id s) i)) (statements w);
     next_statement := next_statement w;
     messages := messages w;
     has_metrics := has_metrics w; metrics := metrics w |}.

(** Every handle in use is older than the next one to be handed out. *)
Definition wf_world (w : World) : Prop :=
  Forall (fun h => (h < next_connection w)%nat) (connections w)
  /\ Forall (fun i => (i < next_statement w)%nat) (statements w).

(** No connection, no file yet. *)
Definition new_world : World :=
  {| connections := []; next_connection := 1%nat;
     statements := []; next_statement := 1%nat; messages := 0%nat;
     has_metrics := false; metrics := [] |}.

(** No connection, and a database file that an earlier run has left with
    the table and the rows [rows]. *)
Definition world_with (rows : list Row) : World :=
  {| connections := []; next_connection := 1%nat;
     statements := []; next_statement := 1%nat; messages := 0%nat;
     has_metrics := true; metrics := rows |}.

(** The library answers every call with success. *)
Definition all_ok : Answers :=
  {| open_rc := SQLITE_OK; open_allocates := true; exec_rc := SQLITE_OK;
     prepare_rc := SQLITE_OK; step_rc := SQLITE_DONE |}.

(** The file opens, the schema statement fails with [rc], and later calls
    succeed. *)
Definition schema_fails (rc : Z) : Answers :=
  {| open_rc := SQLITE_OK; open_allocates := true; exec_rc := rc;
     prepare_rc := SQLITE_OK; step_rc := SQLITE_DONE |}.

End Sqlite.

(* ================================================================== *)
(** ** db_manager.hpp / db_manager.cpp *)
(* ================================================================== *)

Module DbManager.
Import Sqlite.

(** The only member of [DatabaseManager] is the handle [db]. *)
Record DatabaseManager := mkDatabaseManager {
  db : option sqlite3
}.

(** [DatabaseManager::DatabaseManager() : db(nullptr)] *)
Definition DatabaseManager_new : DatabaseManager := {| db := None |}.

(** [DatabaseManager::initTables] *)
Definition initTables (a : Answers) (self : DatabaseManager) (w : World)
  : bool * World :=
  let '(rc, errMsg, w1) := sqlite3_exec (db self) metrics_ddl a w in
  if negb (rc =? SQLITE_OK) then
    (false, sqlite3_free errMsg w1)
  else (true, w1).

(** [DatabaseManager::connect] *)
Definition connect (dbPath : string) (a : Answers) (self : DatabaseManager)
    (w : World) : bool * DatabaseManager * World :=
  let '(rc, h, w1) := sqlite3_open dbPath a w in
  let self1 := {| db := h |} in
  if negb (rc =? SQLITE_OK) then
    match db self1 with
    | Some h' => (false, {| db := None |}, sqlite3_close h' w1)
    | None => (false, self1, w1)
    end
  else
    let '(ok, w2) := initTables a self1 w1 in
    (ok, self1, w2).

(** [DatabaseManager::~DatabaseManager] *)
Definition destroy (self : DatabaseManager) (w : World)
  : DatabaseManager * World :=
  match db self with
  | Some h => ({| db := None |}, sqlite3_close h w)
  | None => (self, w)
  end.

(** [std::string::c_str]: the bytes of the string, followed by a zero
    byte. *)
Definition c_str (s : string) : string := s ++ String NUL EmptyString.

(** [DatabaseManager::insertMetric]; a [sqlite3_prepare_v2] that returns
    [SQLITE_OK] has written a statement to [stmt]. *)
Definition insertMetric (m : Monitor.Metric) (a : Answers)
    (self : DatabaseManager) (w : World) : bool * World :=
  match db self with
  | None => (false, w)
  | Some h =>
    let '(rc, stmt, w1) := sqlite3_prepare_v2 h metrics_insert a w in
    if negb (rc =? SQLITE_OK) then (false, w1)
    else
      match stmt with
      | None => (false, w1)
      | Some stmt =>
        let stmt := sqlite3_bind_text stmt 1 (c_str (Monitor.component m)) (-1) in
        let stmt := sqlite3_bind_text stmt 2 (c_str (Monitor.metric m)) (-1) in
        let stmt := sqlite3_bind_double stmt 3 (Monitor.value m) in
        let stmt := sqlite3_bind_text stmt 4 (c_str (Monitor.unit m)) (-1) in
        let stmt := sqlite3_bind_int64 stmt 5 (Monitor.timestamp m) in
        let '(rc2, w2) := sqlite3_step stmt a w1 in
        if negb (rc2 =? SQLITE_DONE) then
          (false, sqlite3_finalize stmt w2)
        else
          (true, sqlite3_finalize stmt w2)
      end
  end.

(** The state of a store as its user sees it, from the calls made on it:
    [Unopened] until a [connect] returns [true], [Open] from then on,
    [Closed] once it is destroyed. *)
Inductive StoreState := Unopened | Open | Closed.

Inductive Call :=
| CallConnect (dbPath : string) (a : Answers)
| CallDestroy.

Definition call (c : Call) (s : StoreState * DatabaseManager * World)
  : StoreState * DatabaseManager * World :=
  let '(st, self, w) := s in
  match c with
  | CallConnect dbPath a =>
    let '(ok, self', w') := connect dbPath a self w in
    (if ok then Open else st, self', w')
  | CallDestroy =>
    let '(self', w') := destroy self w in (Closed, self', w')
  end.

(** The calls [cs], in order, on a new store. *)
Definition history (cs : list Call) (w : World)
  : StoreState * DatabaseManager * World :=
  fold_left (fun s c => call c s) cs (Unopened, DatabaseManager_new, w).

(** The row that a successful [insertMetric] leaves in the table for a
    metric: each text as far as its first zero byte, and the number as the
    [REAL] column gives it back. *)
Definition row_of (m : Monitor.Metric) : Row :=
  {| row_component := c_text (c_str (Monitor.component m));
     row_metric := c_text (c_str (Monitor.metric m));
     row_value := real_column (Monitor.value m);
     row_unit := c_text (c_str (Monitor.unit m));
     row_timestamp := Monitor.timestamp m |}.

(** A string with a zero byte in it. *)
Fixpoint has_nul (s : string) : bool :=
  match s with
  | EmptyString => false
  | String c rest => Ascii.eqb c NUL || has_nul rest
  end.

(** A metric to insert. *)
Definition sample : Monitor.Metric :=
  {| Monitor.component := "CPU"; Monitor.metric := "Usage";
     Monitor.value := Double.of_Z 42; Monitor.unit := "%";
     Monitor.timestamp := 1700000000 |}.

End DbManager.

(* ================================================================== *)
(** ** monitor.cpp, the revisions 0.1 and 0.2 *)
(* ================================================================== *)

(** The earlier [CpuMonitor] reports a [double]: the percentage, [0.0] on
    the call that sets the baseline and [-1.0] when the OS call fails.  Its
    constructor makes a first call of [getUsage]. *)
Module MonitorV1.
Import Win32 Monitor.

(** The literal [-1.0]. *)
Definition minus_one : Double.double := Eval vm_compute in Double.of_Z (-1).

(** [CpuMonitor::getUsage]: the returned [double] and the monitor after the
    call; [os] is the outcome of [GetSystemTimes]. *)
Definition getUsage (os : option SystemTimes) (self : CpuMonitor)
  : Double.double * CpuMonitor :=
  match os with
  | None => (minus_one, self)
  | Some r =>
    if QuadPart (lastIdleTime self) =? 0 then (Double.zero, baseline_of r)
    else
      let dIdle := deltaIdle self r in
      let total := totalSystem self r in
      if total =? 0 then (Double.zero, baseline_of r)
      else (usage dIdle total, baseline_of r)
  end.

(** [CpuMonitor::CpuMonitor()] of these revisions: the three snapshots are
    set to zero, then [getUsage()] is called and its result dropped. *)
Definition CpuMonitor_new (os : option SystemTimes) : CpuMonitor :=
  snd (getUsage os Monitor.CpuMonitor_new).

(** [RamMonitor::getUsage] (revision 0.2). *)
Definition RamMonitor_getUsage (os : option MEMORYSTATUSEX) : Double.double :=
  match os with
  | None => minus_one
  | Some memInfo => Double.of_Z (dwMemoryLoad memInfo)
  end.

End MonitorV1.

(* ================================================================== *)
(** ** main.cpp *)
(* ================================================================== *)

(** The driver of revision 0.3.  Its loop never ends; [loop] runs its first
    iterations, one for each element of a list that gives what the
    environment delivers in that iteration.  Console output and the sleep
    between two iterations are left out. *)
Module Main.
Import Win32 Monitor Sqlite DbManager.

(** What one iteration receives: the clock and the OS outcome of each
    sampler, and the answers of SQLite to the two inserts. *)
Record Tick := mkTick {
  cpu_clock : Z;
  cpu_os : option SystemTimes;
  ram_clock : Z;
  ram_os : option MEMORYSTATUSEX;
  cpu_answers : Answers;
  ram_answers : Answers
}.

(** The body of [while (true)]. *)
Definition iteration (t : Tick) (db : DatabaseManager) (monitor : CpuMonitor)
    (w : World) : CpuMonitor * World :=
  let o := getMetric (cpu_clock t) (cpu_os t) monitor in
  let ramMetricOpt := RamMonitor_getMetric (ram_clock t) (ram_os t) in
  match returned o, ramMetricOpt with
  | Some cpuMetric, Some ramMetric =>
    let '(_, w1) := insertMetric cpuMetric (cpu_answers t) db w in
    let '(_, w2) := insertMetric ramMetric (ram_answers t) db w1 in
    (after o, w2)
  | _, _ => (after o, w)
  end.

Fixpoint loop (ts : list Tick) (db : DatabaseManager) (monitor : CpuMonitor)
    (w : World) : CpuMonitor * World :=
  match ts with
  | [] => (monitor, w)
  | t :: rest =>
    let '(monitor', w') := iteration t db monitor w in
    loop rest db monitor' w'
  end.

(** [main]: the exit code ([None] while the loop is running) and the world.
    When [connect] fails, [main] returns 1 and the destructor of [db] runs. *)
Definition main (a : Answers) (ts : list Tick) (w : World)
  : option Z * World :=
  let '(ok, db, w1) := connect "data/syspulse.db" a DatabaseManager_new w in
  if negb ok then (Some 1, snd (destroy db w1))
  else (None, snd (loop ts db CpuMonitor_new w1)).

(** The last reading that a run of the sampler has obtained. *)
Fixpoint last_reading (ticks : list (Z * option SystemTimes))
  : option SystemTimes :=
  match ticks with
  | [] => None
  | (_, os) :: rest =>
    match last_reading rest with
    | Some r => Some r
    | None => os
    end
  end.

(** The calls of a run whose OS call succeeded, and the Metrics among what
    a run returned. *)
Definition readings (ticks : list (Z * option SystemTimes)) : nat :=
  List.length (filter (fun t => match snd t with Some _ => true | None => false end)
                 ticks).

Definition metrics_returned (outs : list (option Metric)) : nat :=
  List.length (filter (fun o => match o with Some _ => true | None => false end)
                 outs).

(** Every reading of a run has a non-zero idle count. *)
Definition idle_nonzero (ticks : list (Z * option SystemTimes)) : Prop :=
  Forall (fun t => match snd t with
                   | Some r => QuadPart (fileTimeToInt (idleTime r)) <> 0
                   | None => True
                   end) ticks.

(** A row the samplers can have produced. *)
Definition usage_row (r : Row) : Prop :=
  (row_component r = "CPU"%string \/ row_component r = "RAM"%string)
  /\ row_metric r = "Usage"%string /\ row_unit r = "%"%string.

(** An iteration in which both samplers obtain a reading and both inserts
    succeed. *)
Definition smooth (t : Tick) : Prop :=
  (exists r, cpu_os t = Some r /\ QuadPart (fileTimeToInt (idleTime r)) <> 0)
  /\ (exists memInfo, ram_os t = Some memInfo)
  /\ prepare_rc (cpu_answers t) = SQLITE_OK
  /\ step_rc (cpu_answers t) = SQLITE_DONE
  /\ prepare_rc (ram_answers t) = SQLITE_OK
  /\ step_rc (ram_answers t) = SQLITE_DONE.

(** An iteration in which everything succeeds. *)
Definition calm (idle kernel user load : Z) : Tick :=
  {| cpu_clock := 1700000000; cpu_os := Some (reading idle kernel user);
     ram_clock := 1700000000; ram_os := Some {| dwMemoryLoad := load |};
     cpu_answers := all_ok; ram_answers := all_ok |}.

End Main.

(* ================================================================== *)
(** * Properties *)
(* ================================================================== *)

(** ** Rounding in binary64 *)

Module DoubleFacts.
  Import Double.

Lemma digits2_pos_bounds p :
  2 ^ (Zpos (digits2_pos p) - 1) <= Zpos p < 2 ^ Zpos (digits2_pos p).
Proof.
  induction p as [p IH|p IH|]; simpl digits2_pos.
  - rewrite Pos2Z.inj_succ.
    replace (Z.succ (Zpos (digits2_pos p)) - 1) with (Z.succ (Zpos (digits2_pos p) - 1)) by lia.
    rewrite !Z.pow_succ_r by lia. lia.
  - rewrite Pos2Z.inj_succ.
    replace (Z.succ (Zpos (digits2_pos p)) - 1) with (Z.succ (Zpos (digits2_pos p) - 1)) by lia.
    rewrite !Z.pow_succ_r by lia. lia.
  - simpl. lia.
Qed.

Lemma Zdigits2_bounds z : 0 < z -> 2 ^ (Zdigits2 z - 1) <= z < 2 ^ Zdigits2 z.
Proof. destruct z; try lia. intros _. apply digits2_pos_bounds. Qed.

Lemma Zdigits2_nonneg z : 0 <= Zdigits2 z.
Proof. destruct z; simpl; lia. Qed.

Lemma Zdigits2_pos z : 0 < z -> 0 < Zdigits2 z.
Proof. destruct z; simpl; lia. Qed.

(** A number below [2 ^ k] has at most [k] digits; one from [2 ^ k] on has
    more than [k]. *)
Lemma Zdigits2_le z k : 0 <= z -> 0 <= k -> z < 2 ^ k -> Zdigits2 z <= k.
Proof.
  intros Hz Hk H. destruct (Z.eq_dec z 0) as [->|Hn]; [simpl; lia|].
  destruct (Zdigits2_bounds z ltac:(lia)) as [H1 _].
  destruct (Z_lt_le_dec k (Zdigits2 z)) as [Hlt|]; [|lia].
  assert (2 ^ k <= 2 ^ (Zdigits2 z - 1)) by (apply Z.pow_le_mono_r; lia). lia.
Qed.

Lemma Zdigits2_ge z k : 0 <= k -> 2 ^ k <= z -> k + 1 <= Zdigits2 z.
Proof.
  intros Hk H.
  assert (0 < 2 ^ k) by (apply Z.pow_pos_nonneg; lia).
  destruct (Zdigits2_bounds z ltac:(lia)) as [_ H2].
  destruct (Z_lt_le_dec (Zdigits2 z) (k + 1)) as [Hlt|]; [|lia].
  assert (2 ^ (Zdigits2 z) <= 2 ^ k) by (apply Z.pow_le_mono_r; lia). lia.
Qed.

Lemma Zdigits2_mono a b : 0 <= a <= b -> Zdigits2 a <= Zdigits2 b.
Proof.
  intros [Ha Hab]. destruct (Z.eq_dec a 0) as [->|Hn]; [apply Zdigits2_nonneg|].
  destruct (Zdigits2_bounds a ltac:(lia)) as [H1 _].
  pose proof (Zdigits2_ge b (Zdigits2 a - 1)).
  pose proof (Zdigits2_pos a). lia.
Qed.

(** *** Shifting right keeps track of the discarded fraction *)

(** One shift halves the mantissa, moves its low bit to the round bit and
    accumulates the old round bit in the sticky bit. *)
Lemma shr_1_spec m r s : 0 <= m ->
  shr_1 {| shr_m := m; shr_r := r; shr_s := s |}
  = {| shr_m := m / 2; shr_r := Z.odd m; shr_s := r || s |}.
Proof.
  intros Hm. destruct m as [|p|p]; [reflexivity| |lia].
  destruct p as [p|p|]; simpl.
  - f_equal. rewrite Pos2Z.inj_xI. 
    replace (2 * Zpos p + 1) with (1 + Zpos p * 2) by lia.
    rewrite Z.div_add by lia. reflexivity.
  - f_equal. rewrite Pos2Z.inj_xO. rewrite Z.mul_comm, Z.div_mul by lia. reflexivity.
  - reflexivity.
Qed.

(** The round bit says whether the fraction is at least one half, the sticky
    bit whether anything else remains. *)
Lemma rec_of_record N D : 0 <= N -> 0 < D ->
  rec_of N D = {| shr_m := N / D;
                  shr_r := D <=? 2 * (N mod D);
                  shr_s := negb (N mod D =? 0) && negb (2 * (N mod D) =? D) |}.
Proof.
  intros HN HD. unfold rec_of, loc.
  pose proof (Z.mod_pos_bound N D HD) as Hr.
  destruct (Z.eqb_spec (N mod D) 0) as [H0|H0].
  - rewrite H0. simpl shr_record_of_loc.
    destruct (Z.leb_spec D (2 * 0)); [lia|]. reflexivity.
  - destruct (Z.compare_spec (2 * (N mod D)) D) as [He|Hl|Hg]; simpl shr_record_of_loc.
    + destruct (Z.leb_spec D (2 * (N mod D))); [|lia].
      destruct (Z.eqb_spec (2 * (N mod D)) D); [|lia]. reflexivity.
    + destruct (Z.leb_spec D (2 * (N mod D))); [lia|].
      destruct (Z.eqb_spec (2 * (N mod D)) D); [lia|]. reflexivity.
    + destruct (Z.leb_spec D (2 * (N mod D))); [|lia].
      destruct (Z.eqb_spec (2 * (N mod D)) D); [lia|]. reflexivity.
Qed.

(** Shifting the record of [N / D] once gives the record of [N / (2 * D)]. *)
Lemma rec_of_double N D : 0 <= N -> 0 < D -> shr_1 (rec_of N D) = rec_of N (2 * D).
Proof.
  intros HN HD.
  rewrite (rec_of_record N D), (rec_of_record N (2 * D)) by lia.
  assert (Hq : 0 <= N / D) by (apply Z.div_pos; lia).
  rewrite shr_1_spec by assumption.
  assert (Hdiv : N / (2 * D) = N / D / 2).
  { rewrite Z.mul_comm. symmetry. apply Z.div_div; lia. }
  assert (Hmod : N mod (2 * D) = N mod D + D * ((N / D) mod 2)).
  { rewrite Z.mul_comm. apply Z.rem_mul_r; lia. }
  pose proof (Z.mod_pos_bound N D HD) as Hr.
  pose proof (Z.mod_pos_bound (N / D) 2 ltac:(lia)) as Hb.
  assert (Hodd : Z.odd (N / D) = ((N / D) mod 2 =? 1)).
  { rewrite Zmod_odd. destruct (Z.odd (N / D)); reflexivity. }
  rewrite Hdiv, Hmod, Hodd.
  set (r := N mod D) in *. set (b := (N / D) mod 2) in *.
  assert (Hbb : b = 0 \/ b = 1) by lia.
  f_equal.
  - destruct Hbb as [-> | ->].
    + destruct (Z.leb_spec (2 * D) (2 * (r + D * 0))); [lia|reflexivity].
    + destruct (Z.leb_spec (2 * D) (2 * (r + D * 1))); [reflexivity|lia].
  - destruct Hbb as [-> | ->];
      destruct (Z.leb_spec D (2 * r)); destruct (Z.eqb_spec r 0);
      destruct (Z.eqb_spec (2 * r) D);
      try lia; simpl;
      match goal with |- _ = negb (?x =? 0) && negb (?y =? ?z) =>
        destruct (Z.eqb_spec x 0); destruct (Z.eqb_spec y z) end;
      try lia; reflexivity.
Qed.

Lemma pow2_xI p : 2 ^ Zpos p~1 = 2 * (2 ^ Zpos p * 2 ^ Zpos p).
Proof.
  rewrite (Pos2Z.inj_xI p).
  replace (2 * Zpos p + 1) with (1 + (Zpos p + Zpos p)) by lia.
  rewrite Z.pow_add_r by lia. rewrite Z.pow_add_r by lia. reflexivity.
Qed.

Lemma pow2_xO p : 2 ^ Zpos p~0 = 2 ^ Zpos p * 2 ^ Zpos p.
Proof.
  rewrite (Pos2Z.inj_xO p).
  replace (2 * Zpos p) with (Zpos p + Zpos p) by lia.
  rewrite Z.pow_add_r by lia. reflexivity.
Qed.

Lemma iter_pos_rec_of p : forall N D, 0 <= N -> 0 < D ->
  iter_pos shr_1 p (rec_of N D) = rec_of N (D * 2 ^ Zpos p).
Proof.
  induction p as [p IH|p IH|]; intros N D HN HD; simpl iter_pos.
  - assert (0 < 2 ^ Zpos p) by (apply Z.pow_pos_nonneg; lia).
    rewrite rec_of_double, IH, IH by (try apply Z.mul_pos_pos; lia).
    f_equal. rewrite pow2_xI. ring.
  - assert (0 < 2 ^ Zpos p) by (apply Z.pow_pos_nonneg; lia).
    rewrite IH, IH by (try apply Z.mul_pos_pos; lia).
    f_equal. rewrite pow2_xO. ring.
  - rewrite rec_of_double by assumption. f_equal. change (2 ^ 1) with 2. ring.
Qed.

Lemma shr_rec_of N D e n : 0 <= N -> 0 < D -> 0 <= n ->
  shr (rec_of N D) e n = (rec_of N (D * 2 ^ n), e + n).
Proof.
  intros HN HD Hn. destruct n as [|p|p]; [| |lia].
  - simpl. rewrite Z.mul_1_r, Z.add_0_r. reflexivity.
  - unfold shr. rewrite iter_pos_rec_of by assumption. reflexivity.
Qed.

Lemma loc_of_shr_record_of_loc m l : loc_of_shr_record (shr_record_of_loc m l) = l.
Proof. destruct l as [|[]]; reflexivity. Qed.

Lemma shr_m_of_loc m l : shr_m (shr_record_of_loc m l) = m.
Proof. destruct l as [|[]]; reflexivity. Qed.

(** *** Rounding [N / D] to the nearest integer, ties to even *)

(** The four positions of the fraction and what each rounds to. *)
Lemma rne_cases N D : 0 < D ->
  let q := N / D in let r := N mod D in
  (r = 0 /\ rne N D = q)
  \/ (0 < 2 * r < D /\ rne N D = q)
  \/ (2 * r = D /\ rne N D = if Z.even q then q else q + 1)
  \/ (D < 2 * r /\ rne N D = q + 1).
Proof.
  intros HD q r. unfold rne, loc. fold r. fold q.
  pose proof (Z.mod_pos_bound N D HD) as Hr. fold r in Hr.
  destruct (Z.eqb_spec r 0) as [H0|H0]; [left; split; [assumption|reflexivity]|].
  right.
  destruct (Z.compare_spec (2 * r) D) as [He|Hl|Hg].
  - right; left. split; [assumption|reflexivity].
  - left. split; [lia|reflexivity].
  - right; right. split; [assumption|reflexivity].
Qed.

Lemma rne_bounds N D : 0 < D -> N / D <= rne N D <= N / D + 1.
Proof.
  intros HD. destruct (rne_cases N D HD) as [[_ ->]|[[_ ->]|[[_ ->]|[_ ->]]]];
    try lia. destruct (Z.even (N / D)); lia.
Qed.

Lemma rne_exact N D : 0 < D -> N mod D = 0 -> rne N D = N / D.
Proof.
  intros HD H. destruct (rne_cases N D HD) as [[_ ->]|[[? _]|[[? _]|[? _]]]]; lia.
Qed.

Lemma rne_1 N : rne N 1 = N.
Proof. rewrite rne_exact by (try lia; apply Z.mod_1_r). apply Z.div_1_r. Qed.

(** Rounding does not cross an integer: a fraction below [K] rounds to at
    most [K], one above [K] to at least [K]. *)
Lemma rne_le N D K : 0 < D -> N <= K * D -> rne N D <= K.
Proof.
  intros HD H.
  pose proof (Z.div_mod N D ltac:(lia)) as Hdm.
  pose proof (Z.mod_pos_bound N D HD) as Hr.
  assert (Hq : N / D <= K) by nia.
  destruct (Z.eq_dec (N / D) K) as [He|Hne].
  - rewrite rne_exact; [lia|assumption|]. rewrite He in Hdm. nia.
  - pose proof (rne_bounds N D HD). lia.
Qed.

Lemma rne_ge N D K : 0 < D -> K * D <= N -> K <= rne N D.
Proof.
  intros HD H.
  pose proof (Z.div_mod N D ltac:(lia)) as Hdm.
  pose proof (Z.mod_pos_bound N D HD) as Hr.
  assert (Hq : K <= N / D) by nia.
  pose proof (rne_bounds N D HD). lia.
Qed.

Lemma rne_nonneg N D : 0 <= N -> 0 < D -> 0 <= rne N D.
Proof. intros. apply rne_ge; lia. Qed.

(** Rounding is monotone. *)
Lemma rne_mono N N' D : 0 < D -> N <= N' -> rne N D <= rne N' D.
Proof.
  intros HD H.
  pose proof (Z.div_mod N D ltac:(lia)) as Hdm.
  pose proof (Z.mod_pos_bound N D HD) as Hr.
  pose proof (Z.div_mod N' D ltac:(lia)) as Hdm'.
  pose proof (Z.mod_pos_bound N' D HD) as Hr'.
  assert (Hq : N / D <= N' / D) by (apply Z.div_le_mono; lia).
  destruct (Z.eq_dec (N / D) (N' / D)) as [He|Hne].
  - assert (Hrr : N mod D <= N' mod D) by (rewrite He in Hdm; lia).
    destruct (rne_cases N D HD) as [[? ->]|[[? ->]|[[? ->]|[? ->]]]];
      destruct (rne_cases N' D HD) as [[? ->]|[[? ->]|[[? ->]|[? ->]]]];
      rewrite <- ?He; try lia; destruct (Z.even (N / D)); lia.
  - pose proof (rne_bounds N D HD). pose proof (rne_bounds N' D HD). lia.
Qed.

(** *** What [binary_round_aux] returns *)

Lemma fexp_eq e : fexp prec emax e = Z.max (e - 53) (-1074).
Proof. reflexivity. Qed.




Lemma shr_nonpos mrs e n : n <= 0 -> shr mrs e n = (mrs, e).
Proof. destruct n; try reflexivity. lia. Qed.

Lemma shr_fexp_rec_of N D ex :
  0 <= N -> 0 < D ->
  ex <= fexp prec emax (Zdigits2 (N / D) + ex) ->
  shr_fexp prec emax (N / D) ex (loc N D)
  = (rec_of N (D * 2 ^ (fexp prec emax (Zdigits2 (N / D) + ex) - ex)),
     fexp prec emax (Zdigits2 (N / D) + ex)).
Proof.
  intros HN HD He. unfold shr_fexp. fold (rec_of N D).
  rewrite shr_rec_of by lia. f_equal. lia.
Qed.

Lemma pow2_gt0 k : 0 <= k -> 0 < 2 ^ k.
Proof. intros. apply Z.pow_pos_nonneg; lia. Qed.

(** Rounding the fraction [N / D] scaled by [2 ^ ex]: with [E] the exponent
    of the result's binade, the result is a canonical non-negative number
    and its value is [N / (D * 2 ^ (E - ex))], rounded to the nearest
    integer, in units of [2 ^ E]. *)
Lemma binary_round_aux_spec N D ex :
  0 <= N -> 0 < D ->
  let E := fexp prec emax (Zdigits2 (N / D) + ex) in
  ex <= E -> E < 971 ->
  let r := binary_round_aux prec emax false (N / D) ex (loc N D) in
  good r /\ ulps r = rne N (D * 2 ^ (E - ex)) * 2 ^ (E + 1074).
Proof.
  intros HN HD E Hex Hov r.
  assert (HE : -1074 <= E) by (unfold E; rewrite fexp_eq; lia).
  assert (HEd : Zdigits2 (N / D) + ex - 53 <= E) by (unfold E; rewrite fexp_eq; lia).
  set (n := E - ex) in *.
  assert (Hn : 0 <= n) by lia.
  assert (H2n : 0 < 2 ^ n) by (apply pow2_gt0; lia).
  assert (HD' : 0 < D * 2 ^ n) by (apply Z.mul_pos_pos; lia).
  assert (Hmx : 0 <= N / D) by (apply Z.div_pos; lia).
  assert (Hdd : N / (D * 2 ^ n) = N / D / 2 ^ n) by (symmetry; apply Z.div_div; lia).
  assert (Hub : N / (D * 2 ^ n) < 2 ^ 53).
  { rewrite Hdd. apply Z.div_lt_upper_bound; [lia|].
    rewrite <- Z.pow_add_r by lia.
    destruct (Z.eq_dec (N / D) 0) as [->|Hnz]; [apply pow2_gt0; lia|].
    destruct (Zdigits2_bounds (N / D) ltac:(lia)) as [_ Hlt].
    eapply Z.lt_le_trans; [exact Hlt|]. apply Z.pow_le_mono_r; lia. }
  assert (Hlb : -1074 < E -> 2 ^ 52 <= N / (D * 2 ^ n)).
  { intros Hnorm. rewrite Hdd.
    assert (Hnz : 0 < N / D).
    { destruct (Z.eq_dec (N / D) 0) as [Hz|Hnz]; [|lia].
      exfalso. unfold E in *. rewrite Hz, fexp_eq in *. simpl Zdigits2 in *. lia. }
    assert (HEeq : E = Zdigits2 (N / D) + ex - 53)
      by (unfold E in *; rewrite fexp_eq in *; lia).
    apply Z.div_le_lower_bound; [lia|].
    rewrite <- Z.pow_add_r by lia.
    destruct (Zdigits2_bounds (N / D) Hnz) as [Hge _].
    eapply Z.le_trans; [|exact Hge]. apply Z.pow_le_mono_r; lia. }
  pose proof (rne_bounds N (D * 2 ^ n) HD') as Hb.
  pose proof (rne_nonneg N (D * 2 ^ n) HN HD') as Hm1.
  assert (Hq0 : 0 <= N / (D * 2 ^ n)) by (apply Z.div_pos; lia).
  enough (Hx : exists x, r = x /\ good x
                         /\ ulps x = rne N (D * 2 ^ n) * 2 ^ (E + 1074))
    by (destruct Hx as (x & -> & Hx); exact Hx).
  subst r. unfold binary_round_aux.
  rewrite shr_fexp_rec_of by assumption. fold E. fold n.
  unfold rec_of at 1 2. rewrite shr_m_of_loc, loc_of_shr_record_of_loc.
  fold (rne N (D * 2 ^ n)).
  set (m1 := rne N (D * 2 ^ n)) in *.
  unfold shr_fexp. simpl shr_record_of_loc.
  destruct (Z.eq_dec m1 (2 ^ 53)) as [Hc|Hc].
  - (* the rounded mantissa carries into the next binade *)
    rewrite Hc. change (Zdigits2 (2 ^ 53)) with 54.
    rewrite fexp_eq. replace (Z.max (54 + E - 53) (-1074) - E) with 1 by lia.
    change (2 ^ 53) with 9007199254740992.
    unfold shr. cbn [iter_pos shr_1 shr_m orb].
    replace (E + 1 <=? emax - prec) with true
      by (symmetry; apply Z.leb_le; unfold emax, prec; lia).
    eexists. split; [reflexivity|]. split; [split; [reflexivity|]|].
    + simpl. unfold bounded, canonical_mantissa. rewrite fexp_eq.
      change (Z.pos (digits2_pos 4503599627370496)) with 53.
      apply andb_true_intro. split; [apply Z.eqb_eq; lia|].
      apply Z.leb_le. unfold emax, prec. lia.
    + unfold ulps. replace (E + 1 + 1074) with (1 + (E + 1074)) by lia.
      rewrite Z.pow_add_r by lia. change (2 ^ 1) with 2. lia.
  - assert (Hlt : m1 < 2 ^ 53) by lia.
    assert (Hd1 : Zdigits2 m1 <= 53) by (apply Zdigits2_le; lia).
    rewrite shr_nonpos by (rewrite fexp_eq; lia).
    simpl shr_m.
    destruct m1 as [|p|p] eqn:Hm1e; [| |lia].
    + eexists. split; [reflexivity|]. split; [split; reflexivity|]. reflexivity.
    + replace (E <=? emax - prec) with true
        by (symmetry; apply Z.leb_le; unfold emax, prec; lia).
      eexists. split; [reflexivity|].
      split; [split; [reflexivity|]|reflexivity].
      simpl. unfold bounded, canonical_mantissa. rewrite fexp_eq.
      apply andb_true_intro. split; [|apply Z.leb_le; unfold emax, prec; lia].
      apply Z.eqb_eq.
      change (Z.pos (digits2_pos p)) with (Zdigits2 (Z.pos p)) in *.
      destruct (Z.eq_dec E (-1074)) as [He|He]; [lia|].
      assert (53 <= Zdigits2 (Z.pos p)).
      { apply (Zdigits2_ge (Z.pos p) 52); [lia|]. specialize (Hlb ltac:(lia)). lia. }
      lia.
Qed.

(** *** What [binary_round] returns *)

Lemma Pos_iter_xO p d : Zpos (Pos.iter xO p d) = Zpos p * 2 ^ Zpos d.
Proof.
  induction d as [|d IH] using Pos.peano_ind.
  - simpl. change (2 ^ 1) with 2. lia.
  - rewrite Pos.iter_succ, Pos2Z.inj_xO, IH, Pos2Z.inj_succ.
    rewrite Z.pow_succ_r by lia. ring.
Qed.

Lemma Zdigits2_mul_pow2 z k : 0 < z -> 0 <= k -> Zdigits2 (z * 2 ^ k) = Zdigits2 z + k.
Proof.
  intros Hz Hk.
  destruct (Zdigits2_bounds z Hz) as [Hl Hu].
  pose proof (Zdigits2_pos z Hz) as Hd.
  assert (H2k : 0 < 2 ^ k) by (apply pow2_gt0; lia).
  apply Z.le_antisymm.
  - apply Zdigits2_le; [nia|lia|]. rewrite Z.pow_add_r by lia. nia.
  - replace (Zdigits2 z + k) with ((Zdigits2 z - 1 + k) + 1) by lia.
    apply Zdigits2_ge; [lia|]. rewrite Z.pow_add_r by lia. nia.
Qed.

Lemma loc_exact N : loc N 1 = loc_Exact.
Proof. unfold loc. rewrite Z.mod_1_r. reflexivity. Qed.

(** Rounding the integer [p] scaled by [2 ^ ex]: exact when [p] fits in the
    53 bits of its binade, rounded to the nearest otherwise. *)
Lemma binary_round_spec p ex :
  let E := fexp prec emax (Zdigits2 (Zpos p) + ex) in
  E < 971 ->
  let r := binary_round prec emax false p ex in
  good r /\
  ulps r = if ex <=? E then rne (Zpos p) (2 ^ (E - ex)) * 2 ^ (E + 1074)
           else Zpos p * 2 ^ (ex + 1074).
Proof.
  intros E Hov r. subst r. unfold binary_round, shl_align.
  change (Z.pos (digits2_pos p)) with (Zdigits2 (Z.pos p)). fold E.
  assert (HE : -1074 <= E) by (unfold E; rewrite fexp_eq; lia).
  destruct (Z.leb_spec ex E) as [Hle|Hgt].
  - assert (Hsub : exists k, E - ex = k /\ 0 <= k) by (eexists; split; [reflexivity|lia]).
    destruct Hsub as (k & Hk & Hk0). rewrite Hk.
    destruct k as [|k|k]; [| |lia].
    + pose proof (binary_round_aux_spec (Zpos p) 1 ex ltac:(lia) ltac:(lia)) as H.
      rewrite Z.div_1_r, loc_exact in H. fold E in H.
      specialize (H Hle Hov). cbv zeta in H. rewrite Hk in H.
      rewrite Z.mul_1_l in H. exact H.
    + pose proof (binary_round_aux_spec (Zpos p) 1 ex ltac:(lia) ltac:(lia)) as H.
      rewrite Z.div_1_r, loc_exact in H. fold E in H.
      specialize (H Hle Hov). cbv zeta in H. rewrite Hk in H.
      rewrite Z.mul_1_l in H. exact H.
  - assert (Hsub : exists d, E - ex = Zneg d).
    { destruct (E - ex) as [|k|k] eqn:Hk; try lia. exists k; reflexivity. }
    destruct Hsub as (d & Hd). rewrite Hd.
    set (mz := Pos.iter xO p d).
    assert (Hmz : Zpos mz = Zpos p * 2 ^ (ex - E)).
    { unfold mz. rewrite Pos_iter_xO. f_equal. f_equal. lia. }
    assert (Hdz : Zdigits2 (Zpos mz) + E = Zdigits2 (Zpos p) + ex).
    { rewrite Hmz, Zdigits2_mul_pow2 by lia. lia. }
    pose proof (binary_round_aux_spec (Zpos mz) 1 E ltac:(lia) ltac:(lia)) as H.
    rewrite Z.div_1_r, loc_exact, Hdz in H. fold E in H.
    specialize (H ltac:(lia) Hov). cbv zeta in H.
    rewrite Z.sub_diag, Z.mul_1_l in H. change (2 ^ 0) with 1 in H.
    rewrite rne_1 in H.
    destruct H as [Hg Hu]. split; [exact Hg|].
    rewrite Hu, Hmz. rewrite <- Z.mul_assoc, <- Z.pow_add_r by lia.
    f_equal. f_equal. lia.
Qed.

(** *** Conversion of integers *)



(** [(double)z] is the nearest number with 53 significant bits. *)
Lemma of_Z_spec z :
  0 <= z -> Zdigits2 z < 1024 ->
  good (of_Z z) /\ ulps (of_Z z) = nearest z * 2 ^ 1074.
Proof.
  intros Hz Hd. destruct z as [|p|p]; [| |lia].
  - split; [split; reflexivity|reflexivity].
  - unfold of_Z, binary_normalize.
    pose proof (binary_round_spec p 0) as H. cbv zeta in H.
    pose proof (Zdigits2_pos (Zpos p) ltac:(lia)) as Hp.
    assert (HE : fexp prec emax (Zdigits2 (Z.pos p) + 0) = Zdigits2 (Zpos p) - 53)
      by (rewrite fexp_eq; lia).
    rewrite HE in H. specialize (H ltac:(lia)). destruct H as [Hg Hu].
    split; [exact Hg|]. rewrite Hu. unfold nearest.
    destruct (Z.leb_spec 0 (Zdigits2 (Z.pos p) - 53)) as [Hle|Hgt].
    + rewrite Z.max_r by lia. rewrite Z.sub_0_r.
      rewrite <- Z.mul_assoc, <- Z.pow_add_r by lia. reflexivity.
    + rewrite Z.max_l by lia. change (2 ^ 0) with 1.
      rewrite rne_1. rewrite Z.add_0_l. lia.
Qed.

Lemma nearest_0 : nearest 0 = 0.
Proof. reflexivity. Qed.

Lemma nearest_exact z : 0 <= z < 2 ^ 53 -> nearest z = z.
Proof.
  intros [Hz Hlt]. unfold nearest.
  rewrite Z.max_l by (pose proof (Zdigits2_le z 53 Hz ltac:(lia) Hlt); lia).
  change (2 ^ 0) with 1. rewrite rne_1. lia.
Qed.

Lemma nearest_lower z : 0 < z -> 2 ^ (Zdigits2 z - 1) <= nearest z.
Proof.
  intros Hz. unfold nearest. set (k := Z.max 0 (Zdigits2 z - 53)).
  pose proof (Zdigits2_pos z Hz) as Hd.
  destruct (Zdigits2_bounds z Hz) as [Hl _].
  assert (Hk : 0 <= k <= Zdigits2 z - 1) by (unfold k; lia).
  assert (H2k : 0 < 2 ^ k) by (apply pow2_gt0; lia).
  replace (Zdigits2 z - 1) with ((Zdigits2 z - 1 - k) + k) in * by lia.
  rewrite Z.pow_add_r in * by lia.
  apply Z.mul_le_mono_nonneg_r; [lia|].
  apply rne_ge; assumption.
Qed.

Lemma nearest_upper z : 0 < z -> nearest z <= 2 ^ Zdigits2 z.
Proof.
  intros Hz. unfold nearest. set (k := Z.max 0 (Zdigits2 z - 53)).
  pose proof (Zdigits2_pos z Hz) as Hd.
  destruct (Zdigits2_bounds z Hz) as [_ Hu].
  assert (Hk : 0 <= k <= Zdigits2 z - 1) by (unfold k; lia).
  assert (H2k : 0 < 2 ^ k) by (apply pow2_gt0; lia).
  replace (Zdigits2 z) with ((Zdigits2 z - k) + k) in * by lia.
  rewrite Z.pow_add_r in * by lia.
  apply Z.mul_le_mono_nonneg_r; [lia|].
  apply rne_le; [assumption|lia].
Qed.

Lemma nearest_pos z : 0 < z -> 0 < nearest z.
Proof.
  intros Hz. pose proof (nearest_lower z Hz).
  pose proof (Zdigits2_pos z Hz).
  assert (0 < 2 ^ (Zdigits2 z - 1)) by (apply pow2_gt0; lia). lia.
Qed.

(** The conversion is monotone, also across binades. *)
Lemma nearest_mono a b : 0 <= a <= b -> nearest a <= nearest b.
Proof.
  intros [Ha Hab].
  destruct (Z.eq_dec a 0) as [->|Hnz].
  { rewrite nearest_0. destruct (Z.eq_dec b 0) as [->|Hb]; [rewrite nearest_0; lia|].
    pose proof (nearest_pos b ltac:(lia)). lia. }
  pose proof (Zdigits2_mono a b ltac:(lia)) as Hd.
  destruct (Z.eq_dec (Zdigits2 a) (Zdigits2 b)) as [He|Hne].
  - unfold nearest. rewrite He. set (k := Z.max 0 (Zdigits2 b - 53)).
    assert (H2k : 0 < 2 ^ k) by (apply pow2_gt0; unfold k; lia).
    apply Z.mul_le_mono_nonneg_r; [lia|]. apply rne_mono; assumption.
  - pose proof (nearest_upper a ltac:(lia)) as Hu.
    pose proof (nearest_lower b ltac:(lia)) as Hl.
    assert (2 ^ Zdigits2 a <= 2 ^ (Zdigits2 b - 1))
      by (apply Z.pow_le_mono_r; lia).
    lia.
Qed.

(** *** Comparison *)

Lemma good_finite_inv m e :
  good (S754_finite false m e) ->
  -1074 <= e <= 971 /\ Zdigits2 (Zpos m) <= 53
  /\ (-1074 < e -> Zdigits2 (Zpos m) = 53).
Proof.
  intros [_ Hv]. simpl in Hv. unfold bounded, canonical_mantissa in Hv.
  apply andb_prop in Hv. destruct Hv as [Hc Hb].
  apply Z.eqb_eq in Hc. apply Z.leb_le in Hb. rewrite fexp_eq in Hc.
  change (Z.pos (digits2_pos m)) with (Zdigits2 (Z.pos m)) in Hc.
  unfold emax, prec in Hb. lia.
Qed.

Lemma ulps_nonneg x : 0 <= ulps x.
Proof.
  destruct x as [| | |[] m e]; unfold ulps; lia.
Qed.

(** On canonical non-negative numbers, [<=] is the order of the values. *)
Lemma leb_of_ulps x y :
  good x -> good y -> ulps x <= ulps y -> SFleb x y = true.
Proof.
  intros Hx Hy H.
  destruct x as [sx| | |sx mx ex]; try (destruct Hx as [Hx _]; discriminate Hx);
  destruct y as [sy| | |sy my ey]; try (destruct Hy as [Hy _]; discriminate Hy).
  - reflexivity.
  - destruct sy; [destruct Hy as [Hy _]; discriminate Hy|]. reflexivity.
  - destruct sx; [destruct Hx as [Hx _]; discriminate Hx|].
    exfalso. destruct (good_finite_inv _ _ Hx) as (He & _ & _).
    unfold ulps in H. pose proof (pow2_gt0 (ex + 1074) ltac:(lia)). nia.
  - destruct sx; [destruct Hx as [Hx _]; discriminate Hx|].
    destruct sy; [destruct Hy as [Hy _]; discriminate Hy|].
    destruct (good_finite_inv _ _ Hx) as (Hex & Hdx & Hnx).
    destruct (good_finite_inv _ _ Hy) as (Hey & Hdy & Hny).
    unfold SFleb, SFcompare. unfold ulps in H.
    destruct (Z.compare_spec ex ey) as [He|Hl|Hg]; [|reflexivity|].
    + subst ey. pose proof (pow2_gt0 (ex + 1074) ltac:(lia)) as Hp.
      assert (Hm : (mx <= my)%positive) by nia.
      change (Pos.compare_cont Eq mx my) with (Pos.compare mx my).
      destruct (Pos.compare_spec mx my); try reflexivity. lia.
    + exfalso.
      destruct (Zdigits2_bounds (Zpos mx) ltac:(lia)) as [Hlx _].
      destruct (Zdigits2_bounds (Zpos my) ltac:(lia)) as [_ Huy].
      rewrite (Hnx ltac:(lia)) in Hlx.
      assert (Huy' : Zpos my < 2 ^ 53).
      { eapply Z.lt_le_trans; [exact Huy|]. apply Z.pow_le_mono_r; lia. }
      replace (ex + 1074) with ((ex - ey) + (ey + 1074)) in H by lia.
      rewrite Z.pow_add_r in H by lia.
      pose proof (pow2_gt0 (ey + 1074) ltac:(lia)) as Hp.
      assert (Hq : 2 <= 2 ^ (ex - ey)).
      { change 2 with (2 ^ 1) at 1. apply Z.pow_le_mono_r; lia. }
      change (2 ^ (53 - 1)) with 4503599627370496 in Hlx.
      change (2 ^ 53) with 9007199254740992 in Huy'.
      assert (Hmq : 9007199254740992 <= Zpos mx * 2 ^ (ex - ey)) by nia.
      rewrite Z.mul_assoc in H. nia.
Qed.

(** *** Division of a number by a larger one *)

(** The location [SFdiv] computes from the remainder is that of the
    fraction. *)
Lemma new_location_loc D r :
  0 < D -> 0 <= r < D ->
  new_location D r = if r =? 0 then loc_Exact else loc_Inexact (2 * r ?= D).
Proof.
  intros HD Hr. unfold new_location.
  destruct (Z.even D) eqn:Hev.
  - unfold new_location_even. reflexivity.
  - unfold new_location_odd. destruct (r =? 0); [reflexivity|].
    assert (Hodd : D mod 2 = 1) by (rewrite Zmod_even, Hev; reflexivity).
    pose proof (Z.div_mod D 2 ltac:(lia)) as Hdm.
    f_equal.
    destruct (Z.compare_spec (2 * r + 1) D);
      destruct (Z.compare_spec (2 * r) D); try reflexivity; lia.
Qed.

Lemma div_eucl_eq a b : Z.div_eucl a b = (a / b, a mod b).
Proof. unfold Z.div, Z.modulo. destruct (Z.div_eucl a b). reflexivity. Qed.

(** The smaller of two numbers has the smaller magnitude. *)
Lemma magnitude_le m1 p1 m2 p2 :
  0 < m1 -> 0 < m2 -> 0 <= p1 -> 0 <= p2 ->
  m1 * 2 ^ p1 <= m2 * 2 ^ p2 ->
  Zdigits2 m1 + p1 <= Zdigits2 m2 + p2.
Proof.
  intros H1 H2 Hp1 Hp2 H.
  destruct (Zdigits2_bounds m1 H1) as [Hl _].
  destruct (Zdigits2_bounds m2 H2) as [_ Hu].
  pose proof (Zdigits2_pos m1 H1). pose proof (Zdigits2_pos m2 H2).
  pose proof (pow2_gt0 p1 Hp1). pose proof (pow2_gt0 p2 Hp2).
  assert (Hlt : 2 ^ (Zdigits2 m1 - 1 + p1) < 2 ^ (Zdigits2 m2 + p2)).
  { rewrite !Z.pow_add_r by lia. nia. }
  apply Z.pow_lt_mono_r_iff in Hlt; lia.
Qed.

(** The rounded quotient of a non-negative number by a larger one is a
    canonical number of [0, 1]. *)
Lemma SFdiv_le_one A B :
  good A -> good B -> 0 < ulps B -> ulps A <= ulps B ->
  good (SFdiv prec emax A B) /\ ulps (SFdiv prec emax A B) <= 2 ^ 1074.
Proof.
  intros HA HB HposB Hle.
  destruct B as [sb| | |sb mb eb]; try (destruct HB as [HB _]; discriminate HB);
    [unfold ulps in HposB; lia|].
  destruct sb; [destruct HB as [HB _]; discriminate HB|].
  destruct A as [sa| | |sa ma ea]; try (destruct HA as [HA _]; discriminate HA).
  { split; [split; reflexivity|]. simpl. lia. }
  destruct sa; [destruct HA as [HA _]; discriminate HA|].
  destruct (good_finite_inv _ _ HA) as (Hea & Hda & _).
  destruct (good_finite_inv _ _ HB) as (Heb & Hdb & _).
  unfold ulps in Hle, HposB.
  pose proof (magnitude_le (Zpos ma) (ea + 1074) (Zpos mb) (eb + 1074)
                ltac:(lia) ltac:(lia) ltac:(lia) ltac:(lia) Hle) as Hmag.
  unfold SFdiv, SFdiv_core_binary.
  set (e' := Z.min (fexp prec emax (Zdigits2 (Z.pos ma) + ea - (Zdigits2 (Z.pos mb) + eb)))
                   (ea - eb)).
  set (s := ea - eb - e').
  assert (He'1 : e' <= -53) by (unfold e'; rewrite fexp_eq; lia).
  assert (He'2 : e' <= ea - eb) by (unfold e'; lia).
  assert (Hs : 0 <= s) by (unfold s; lia).
  set (m' := match s with Z0 => Z.pos ma | Z.pos _ => Z.shiftl (Z.pos ma) s | Z.neg _ => 0 end).
  assert (Hm' : m' = Zpos ma * 2 ^ s).
  { unfold m'. destruct s as [|k|k] eqn:Hk; [change (2 ^ 0) with 1; lia| |lia].
    apply Z.shiftl_mul_pow2. lia. }
  rewrite div_eucl_eq. cbv iota beta. change (xorb false false) with false.
  pose proof (Z.mod_pos_bound m' (Zpos mb) ltac:(lia)) as Hr.
  rewrite new_location_loc by lia. fold (loc m' (Zpos mb)).
  assert (H2s : 0 < 2 ^ s) by (apply pow2_gt0; lia).
  assert (HN : 0 <= m') by (rewrite Hm'; lia).
  (* the exact quotient is at most one *)
  assert (Hone : m' <= Zpos mb * 2 ^ (- e')).
  { rewrite Hm'.
    pose proof (pow2_gt0 (eb + 1074) ltac:(lia)) as HP.
    pose proof (pow2_gt0 (- e') ltac:(lia)) as HQ.
    apply (Z.mul_le_mono_pos_r _ _ (2 ^ (eb + 1074))); [assumption|].
    assert (Heq : 2 ^ s * 2 ^ (eb + 1074) = 2 ^ (ea + 1074) * 2 ^ (- e')).
    { rewrite <- !Z.pow_add_r by lia. f_equal. unfold s. lia. }
    replace (Z.pos ma * 2 ^ s * 2 ^ (eb + 1074))
      with (Z.pos ma * 2 ^ (ea + 1074) * 2 ^ (- e'))
      by (rewrite <- !Z.mul_assoc, Heq; reflexivity).
    replace (Z.pos mb * 2 ^ (- e') * 2 ^ (eb + 1074))
      with (Z.pos mb * 2 ^ (eb + 1074) * 2 ^ (- e')) by ring.
    apply Z.mul_le_mono_nonneg_r; lia. }
  assert (Hq : m' / Zpos mb <= 2 ^ (- e')).
  { apply Z.div_le_upper_bound; [lia|]. lia. }
  assert (Hq0 : 0 <= m' / Zpos mb) by (apply Z.div_pos; lia).
  assert (Hdq : Zdigits2 (m' / Zpos mb) + e' <= 1).
  { pose proof (pow2_gt0 (- e') ltac:(lia)).
    assert (Zdigits2 (m' / Z.pos mb) <= - e' + 1); [|lia].
    apply Zdigits2_le; [lia|lia|].
    rewrite Z.pow_add_r by lia. change (2 ^ 1) with 2. lia. }
  set (E := fexp prec emax (Zdigits2 (m' / Z.pos mb) + e')).
  assert (HE : -1074 <= E <= -52) by (unfold E; rewrite fexp_eq; lia).
  (* the quotient has enough digits for its exponent *)
  assert (Hex : e' <= E).
  { unfold E. rewrite fexp_eq.
    destruct (Z_le_gt_dec e' (-1074)) as [Hlow|Hhigh]; [lia|].
    assert (He'3 : e' <= Zdigits2 (Z.pos ma) + ea - (Zdigits2 (Z.pos mb) + eb) - 53)
      by (unfold e' in *; rewrite fexp_eq in *; lia).
    assert (Hsd : 52 <= Zdigits2 (Zpos ma) - 1 + s - Zdigits2 (Zpos mb)) by (unfold s; lia).
    destruct (Zdigits2_bounds (Zpos ma) ltac:(lia)) as [Hla _].
    destruct (Zdigits2_bounds (Zpos mb) ltac:(lia)) as [_ Hub].
    pose proof (Zdigits2_pos (Zpos ma) ltac:(lia)).
    pose proof (Zdigits2_pos (Zpos mb) ltac:(lia)).
    set (t := Zdigits2 (Zpos ma) - 1 + s - Zdigits2 (Zpos mb)) in *.
    assert (Hqt : 2 ^ t <= m' / Zpos mb).
    { apply Z.div_le_lower_bound; [lia|]. rewrite Hm'.
      assert (Heq : 2 ^ (Zdigits2 (Z.pos ma) - 1) * 2 ^ s
                    = 2 ^ Zdigits2 (Z.pos mb) * 2 ^ t).
      { rewrite <- !Z.pow_add_r by lia. f_equal. unfold t. lia. }
      pose proof (pow2_gt0 t ltac:(lia)).
      nia. }
    pose proof (Zdigits2_ge (m' / Zpos mb) t ltac:(lia) Hqt). unfold t in *. lia. }
  pose proof (binary_round_aux_spec m' (Zpos mb) e' HN ltac:(lia)) as H.
  fold E in H. specialize (H Hex ltac:(lia)). cbv zeta in H.
  destruct H as [Hg Hu]. split; [exact Hg|].
  rewrite Hu.
  assert (HK : rne m' (Z.pos mb * 2 ^ (E - e')) <= 2 ^ (- E)).
  { pose proof (pow2_gt0 (E - e') ltac:(lia)).
    apply rne_le; [lia|].
    rewrite (Z.mul_comm (Zpos mb)), Z.mul_assoc, <- Z.pow_add_r by lia.
    replace (- E + (E - e')) with (- e') by lia. lia. }
  replace (2 ^ 1074) with (2 ^ (- E) * 2 ^ (E + 1074))
    by (rewrite <- Z.pow_add_r by lia; f_equal; lia).
  apply Z.mul_le_mono_nonneg_r; [|exact HK].
  pose proof (pow2_gt0 (E + 1074) ltac:(lia)). lia.
Qed.

(** *** Rounding stays below a bound that has 53 significant bits *)

Lemma binary_round_aux_bound N D ex K g :
  0 <= N -> 0 < D ->
  ex <= fexp prec emax (Zdigits2 (N / D) + ex) ->
  2 ^ 52 <= K < 2 ^ 53 -> -1074 <= g <= 970 -> ex <= g ->
  N <= K * 2 ^ (g - ex) * D ->
  let r := binary_round_aux prec emax false (N / D) ex (loc N D) in
  good r /\ ulps r <= K * 2 ^ (g + 1074).
Proof.
  intros HN HD Hex HK Hg Hexg Hle r.
  set (E := fexp prec emax (Zdigits2 (N / D) + ex)) in *.
  assert (Hp : 0 < 2 ^ (g - ex)) by (apply pow2_gt0; lia).
  assert (Hq : N / D <= K * 2 ^ (g - ex)).
  { apply Z.div_le_upper_bound; [lia|]. lia. }
  assert (Hq0 : 0 <= N / D) by (apply Z.div_pos; lia).
  assert (Hd : Zdigits2 (N / D) <= 53 + (g - ex)).
  { destruct (Z.eq_dec (N / D) (K * 2 ^ (g - ex))) as [He|Hne].
    - rewrite He, Zdigits2_mul_pow2 by lia.
      pose proof (Zdigits2_le K 53 ltac:(lia) ltac:(lia) ltac:(lia)). lia.
    - apply Zdigits2_le; [lia|lia|]. rewrite Z.pow_add_r by lia. nia. }
  assert (HE : -1074 <= E <= g) by (unfold E; rewrite fexp_eq; lia).
  pose proof (binary_round_aux_spec N D ex HN HD) as H. fold E in H.
  specialize (H Hex ltac:(lia)). cbv zeta in H. fold r in H.
  destruct H as [Hgd Hu]. split; [exact Hgd|]. rewrite Hu.
  assert (Hr : rne N (D * 2 ^ (E - ex)) <= K * 2 ^ (g - E)).
  { pose proof (pow2_gt0 (E - ex) ltac:(lia)).
    apply rne_le; [lia|].
    replace (K * 2 ^ (g - E) * (D * 2 ^ (E - ex)))
      with (K * (2 ^ (g - E) * 2 ^ (E - ex)) * D) by ring.
    rewrite <- Z.pow_add_r by lia.
    replace (g - E + (E - ex)) with (g - ex) by lia. exact Hle. }
  replace (K * 2 ^ (g + 1074)) with (K * 2 ^ (g - E) * 2 ^ (E + 1074))
    by (rewrite <- Z.mul_assoc, <- Z.pow_add_r by lia; f_equal; f_equal; lia).
  apply Z.mul_le_mono_nonneg_r; [|exact Hr].
  pose proof (pow2_gt0 (E + 1074) ltac:(lia)). lia.
Qed.

Lemma binary_round_bound p ex K g :
  2 ^ 52 <= K < 2 ^ 53 -> -1074 <= g <= 970 -> ex <= g ->
  Zpos p <= K * 2 ^ (g - ex) ->
  let r := binary_round prec emax false p ex in
  good r /\ ulps r <= K * 2 ^ (g + 1074).
Proof.
  intros HK Hg Hexg Hle r.
  set (E := fexp prec emax (Zdigits2 (Zpos p) + ex)).
  assert (Hp : 0 < 2 ^ (g - ex)) by (apply pow2_gt0; lia).
  assert (Hd : Zdigits2 (Zpos p) <= 53 + (g - ex)).
  { destruct (Z.eq_dec (Zpos p) (K * 2 ^ (g - ex))) as [He|Hne].
    - rewrite He, Zdigits2_mul_pow2 by lia.
      pose proof (Zdigits2_le K 53 ltac:(lia) ltac:(lia) ltac:(lia)). lia.
    - apply Zdigits2_le; [lia|lia|]. rewrite Z.pow_add_r by lia. nia. }
  assert (HE : -1074 <= E <= g) by (unfold E; rewrite fexp_eq; lia).
  pose proof (binary_round_spec p ex) as H. fold E in H.
  specialize (H ltac:(lia)). cbv zeta in H. fold r in H.
  destruct H as [Hgd Hu]. split; [exact Hgd|]. rewrite Hu.
  destruct (Z.leb_spec ex E) as [Hlow|Hhigh].
  - assert (Hr : rne (Zpos p) (2 ^ (E - ex)) <= K * 2 ^ (g - E)).
    { pose proof (pow2_gt0 (E - ex) ltac:(lia)).
      apply rne_le; [lia|].
      rewrite <- Z.mul_assoc, <- Z.pow_add_r by lia.
      replace (g - E + (E - ex)) with (g - ex) by lia. exact Hle. }
    replace (K * 2 ^ (g + 1074)) with (K * 2 ^ (g - E) * 2 ^ (E + 1074))
      by (rewrite <- Z.mul_assoc, <- Z.pow_add_r by lia; f_equal; f_equal; lia).
    apply Z.mul_le_mono_nonneg_r; [|exact Hr].
    pose proof (pow2_gt0 (E + 1074) ltac:(lia)). lia.
  - replace (K * 2 ^ (g + 1074)) with (K * 2 ^ (g - ex) * 2 ^ (ex + 1074))
      by (rewrite <- Z.mul_assoc, <- Z.pow_add_r by lia; f_equal; f_equal; lia).
    apply Z.mul_le_mono_nonneg_r; [|exact Hle].
    pose proof (pow2_gt0 (ex + 1074) ltac:(lia)). lia.
Qed.

(** *** [1.0 - q] and [s * 100.0] *)


Lemma good_one : good one.
Proof. split; reflexivity. Qed.

Lemma ulps_one : ulps one = 2 ^ 1074.
Proof.
  unfold one, ulps. change 4503599627370496 with (2 ^ 52).
  rewrite <- Z.pow_add_r by lia. reflexivity.
Qed.

Lemma good_hundred : good hundred.
Proof. split; reflexivity. Qed.

Lemma ulps_hundred : ulps hundred = 100 * 2 ^ 1074.
Proof.
  unfold hundred, ulps. change 7036874417766400 with (25 * 2 ^ 48).
  replace (-46 + 1074) with (1028) by lia.
  change 100 with (25 * 2 ^ 2). rewrite <- !Z.mul_assoc, <- !Z.pow_add_r by lia.
  reflexivity.
Qed.

Lemma shl_align_fst m e e' :
  e' <= e -> Zpos (fst (shl_align m e e')) = Zpos m * 2 ^ (e - e').
Proof.
  intros H. unfold shl_align.
  destruct (e' - e) as [|d|d] eqn:Hd; simpl fst.
  - replace (e - e') with 0 by lia. change (2 ^ 0) with 1. lia.
  - lia.
  - rewrite Pos_iter_xO. f_equal. f_equal. lia.
Qed.

(** A [double] in [0, 1]: its exponent is at most -52 and its mantissa at
    most [2 ^ - e]. *)
Lemma le_one_inv m e :
  good (S754_finite false m e) -> ulps (S754_finite false m e) <= 2 ^ 1074 ->
  -1074 <= e <= -52 /\ Zpos m <= 2 ^ (- e).
Proof.
  intros Hg H. destruct (good_finite_inv _ _ Hg) as (He & Hd & Hn).
  unfold ulps in H.
  pose proof (pow2_gt0 (e + 1074) ltac:(lia)) as Hp.
  assert (He52 : e <= -52).
  { destruct (Z_le_gt_dec e (-52)) as [|Hgt]; [assumption|exfalso].
    destruct (Zdigits2_bounds (Zpos m) ltac:(lia)) as [Hl _].
    rewrite (Hn ltac:(lia)) in Hl.
    assert (Hlt : 2 ^ (52 + (e + 1074)) <= 2 ^ 1074).
    { rewrite Z.pow_add_r by lia. change (53 - 1) with 52 in Hl. nia. }
    apply Z.pow_le_mono_r_iff in Hlt; lia. }
  split; [lia|].
  apply (Z.mul_le_mono_pos_r _ _ (2 ^ (e + 1074))); [assumption|].
  rewrite <- Z.pow_add_r by lia. replace (- e + (e + 1074)) with 1074 by lia.
  exact H.
Qed.

(** [1.0 - q] is a canonical number of [0, 1] when [q] is. *)
Lemma SFsub_one_le q :
  good q -> ulps q <= 2 ^ 1074 ->
  good (SFsub prec emax one q) /\ ulps (SFsub prec emax one q) <= 2 ^ 1074.
Proof.
  intros Hg H.
  destruct q as [s| | |s m e]; try (destruct Hg as [Hg _]; discriminate Hg).
  { change (SFsub prec emax one (S754_zero s)) with one.
    split; [exact good_one|]. rewrite ulps_one. lia. }
  destruct s; [destruct Hg as [Hg _]; discriminate Hg|].
  destruct (le_one_inv m e Hg H) as (He & Hm).
  unfold SFsub, one. rewrite Z.min_r by lia.
  unfold cond_Zopp. rewrite !shl_align_fst by lia.
  rewrite Z.sub_diag. change (2 ^ 0) with 1. rewrite Z.mul_1_r.
  change 4503599627370496 with (2 ^ 52). rewrite <- Z.pow_add_r by lia.
  replace (52 + (-52 - e)) with (- e) by lia.
  destruct (2 ^ (- e) - Zpos m) as [|p|p] eqn:Hdiff; [| |lia].
  - split; [split; reflexivity|]. simpl. lia.
  - unfold binary_normalize.
    pose proof (binary_round_bound p e (2 ^ 52) (-52)) as Hb.
    replace (2 ^ 52 * 2 ^ (-52 + 1074)) with (2 ^ 1074) in Hb
      by (rewrite <- Z.pow_add_r by lia; reflexivity).
    apply Hb; try lia.
    rewrite <- Z.pow_add_r by lia. replace (52 + (-52 - e)) with (- e) by lia. lia.
Qed.

(** [s * 100.0] is a canonical number of [0, 100] when [s] is one of
    [0, 1]. *)
Lemma SFmul_hundred_le s :
  good s -> ulps s <= 2 ^ 1074 ->
  good (SFmul prec emax s hundred)
  /\ ulps (SFmul prec emax s hundred) <= ulps hundred.
Proof.
  intros Hg H.
  destruct s as [sg| | |sg m e]; try (destruct Hg as [Hg _]; discriminate Hg).
  { split; [split; reflexivity|]. simpl ulps at 1. apply ulps_nonneg. }
  destruct sg; [destruct Hg as [Hg _]; discriminate Hg|].
  destruct (le_one_inv m e Hg H) as (He & Hm).
  replace (ulps hundred) with (7036874417766400 * 2 ^ (-46 + 1074)) by reflexivity.
  unfold SFmul, hundred. change (xorb false false) with false.
  set (N := Zpos (m * 7036874417766400)).
  assert (HN : N = Zpos m * (25 * 2 ^ 48)) by (unfold N; rewrite Pos2Z.inj_mul; reflexivity).
  assert (Hd : Zdigits2 (Zpos m) + 52 <= Zdigits2 N).
  { rewrite <- Zdigits2_mul_pow2 by lia. apply Zdigits2_mono.
    rewrite HN. change (2 ^ 52) with 4503599627370496.
    change (25 * 2 ^ 48) with 7036874417766400. lia. }
  pose proof (Zdigits2_pos (Zpos m) ltac:(lia)) as Hdm.
  pose proof (binary_round_aux_bound N 1 (e + -46) 7036874417766400 (-46)) as Hb.
  rewrite Z.div_1_r, loc_exact in Hb.
  assert (H1 : e + -46 <= fexp prec emax (Zdigits2 N + (e + -46)))
    by (rewrite fexp_eq; lia).
  assert (H2 : 2 ^ 52 <= 7036874417766400 < 2 ^ 53).
  { change (2 ^ 52) with 4503599627370496.
    change (2 ^ 53) with 9007199254740992. lia. }
  assert (H3 : N <= 7036874417766400 * 2 ^ (-46 - (e + -46)) * 1).
  { rewrite HN, Z.mul_1_r. replace (-46 - (e + -46)) with (- e) by lia.
    change (25 * 2 ^ 48) with 7036874417766400.
    pose proof (pow2_gt0 (- e) ltac:(lia)). nia. }
  exact (Hb ltac:(lia) ltac:(lia) H1 H2 ltac:(lia) ltac:(lia) H3).
Qed.

(** *** The operands of the percentage *)

Lemma good_zero : good zero.
Proof. split; reflexivity. Qed.

Lemma of_Z_u64 z :
  0 <= z < 2 ^ 64 -> good (of_Z z) /\ ulps (of_Z z) = nearest z * 2 ^ 1074.
Proof.
  intros [Hz Hlt]. apply of_Z_spec; [assumption|].
  pose proof (Zdigits2_le z 64 Hz ltac:(lia) Hlt). lia.
Qed.

(** The conversion of a positive 64-bit integer is not zero. *)
Lemma of_Z_nonzero z : 0 < z < 2 ^ 64 -> eqb (of_Z z) zero = false.
Proof.
  intros Hz. destruct (of_Z_u64 z ltac:(lia)) as [[Hf _] Hu].
  pose proof (nearest_pos z ltac:(lia)) as Hpos.
  assert (HP : 0 < 2 ^ 1074) by (apply pow2_gt0; lia).
  assert (0 < ulps (of_Z z)) by (rewrite Hu; apply Z.mul_pos_pos; assumption).
  destruct (of_Z z) as [s| | |[] m e]; try discriminate Hf;
    try (unfold ulps in *; lia).
  reflexivity.
Qed.

(** *** The number a double stands for *)

(** The rational value of a canonical non-negative number, in units of
    [2 ^ -1074]. *)
Lemma to_Q_ulps x :
  good x -> (to_Q x * inject_Z (2 ^ 1074) == inject_Z (ulps x))%Q.
Proof.
  intros Hg.
  destruct x as [s| | |s m e]; try (destruct Hg as [Hg _]; discriminate Hg).
  - unfold to_Q, ulps. ring.
  - destruct s; [destruct Hg as [Hg _]; discriminate Hg|].
    destruct (good_finite_inv _ _ Hg) as (He & _).
    unfold to_Q, ulps.
    rewrite inject_Z_mult.
    rewrite !Zpower_Qpower by lia.
    rewrite Qpower_plus by discriminate.
    change (inject_Z 2) with (2 # 1)%Q.
    ring.
Qed.

Lemma pow1074_Q : (0 < inject_Z (2 ^ 1074))%Q.
Proof.
  change 0%Q with (inject_Z 0). rewrite <- Zlt_Qlt. apply pow2_gt0. lia.
Qed.

(** A conversion that does not round stands for the integer itself. *)
Lemma to_Q_of_Z_exact z : 0 <= z < 2 ^ 53 -> (to_Q (of_Z z) == inject_Z z)%Q.
Proof.
  intros Hz.
  assert (Hz64 : 0 <= z < 2 ^ 64).
  { split; [lia|]. eapply Z.lt_le_trans; [apply Hz|]. apply Z.pow_le_mono_r; lia. }
  destruct (of_Z_u64 z Hz64) as [Hg Hu].
  pose proof (to_Q_ulps _ Hg) as H. rewrite Hu, nearest_exact in H by assumption.
  rewrite inject_Z_mult in H.
  apply Qmult_inj_r in H; [exact H|].
  intros Hc. pose proof pow1074_Q as Hp. rewrite Hc in Hp. apply (Qlt_irrefl _ Hp).
Qed.

Lemma to_Q_bounds x c :
  good x -> ulps x <= c * 2 ^ 1074 -> (0 <= to_Q x <= inject_Z c)%Q.
Proof.
  intros Hg H. pose proof (to_Q_ulps _ Hg) as He. pose proof pow1074_Q as Hp.
  split.
  - apply (Qmult_le_r _ _ _ Hp). rewrite He, Qmult_0_l.
    change 0%Q with (inject_Z 0). rewrite <- Zle_Qle. apply ulps_nonneg.
  - apply (Qmult_le_r _ _ _ Hp). rewrite He, <- inject_Z_mult.
    rewrite <- Zle_Qle. exact H.
Qed.

End DoubleFacts.

(** ** The samplers *)

Module MonitorSpec.
Import Double DoubleFacts Win32 Monitor.

Lemma getMetric_unset (now : Z) (r : SystemTimes) (self : CpuMonitor) :
  QuadPart (lastIdleTime self) = 0 ->
  getMetric now (Some r) self
  = {| returned := None; after := baseline_of r; divisors := [] |}.
Proof.
  intros H. unfold getMetric. rewrite H. reflexivity.
Qed.

Lemma getMetric_value (now : Z) (self : CpuMonitor) (r : SystemTimes) :
  QuadPart (lastIdleTime self) <> 0 ->
  totalSystem self r <> 0 ->
  getMetric now (Some r) self
  = {| returned := Some {| component := "CPU"; metric := "Usage";
                           value := usage (deltaIdle self r) (totalSystem self r);
                           unit := "%"; timestamp := now |};
       after := baseline_of r;
       divisors := [of_Z (totalSystem self r)] |}.
Proof.
  intros Hb Ht. unfold getMetric.
  apply Z.eqb_neq in Hb. rewrite Hb.
  apply Z.eqb_neq in Ht. rewrite Ht. reflexivity.
Qed.

Lemma getMetric_degenerate (now : Z) (self : CpuMonitor) (r : SystemTimes) :
  QuadPart (lastIdleTime self) <> 0 ->
  totalSystem self r = 0 ->
  getMetric now (Some r) self
  = {| returned := Some {| component := "CPU"; metric := "Usage";
                           value := zero;
                           unit := "%"; timestamp := now |};
       after := baseline_of r;
       divisors := [] |}.
Proof.
  intros Hb Ht. unfold getMetric.
  apply Z.eqb_neq in Hb. rewrite Hb. rewrite Ht. reflexivity.
Qed.

(** Every call that obtains a reading stores it. *)
Lemma getMetric_after_success (now : Z) (r : SystemTimes) (self : CpuMonitor) :
  after (getMetric now (Some r) self) = baseline_of r.
Proof.
  unfold getMetric.
  destruct (QuadPart (lastIdleTime self) =? 0); [reflexivity|].
  destruct (totalSystem self r =? 0); reflexivity.
Qed.

Lemma wrap64_range z : 0 <= wrap64 z < 2 ^ 64.
Proof. unfold wrap64. apply Z.mod_pos_bound. apply pow2_gt0. lia. Qed.

Lemma QuadPart_range u : 0 <= QuadPart u < 2 ^ 64.
Proof.
  unfold QuadPart.
  pose proof (Z.mod_pos_bound (LowPart u) (2 ^ 32) ltac:(lia)).
  pose proof (Z.mod_pos_bound (HighPart u) (2 ^ 32) ltac:(lia)).
  change (2 ^ 64) with (2 ^ 32 * 2 ^ 32). nia.
Qed.

Lemma QuadPart_of_QuadPart q : QuadPart (of_QuadPart q) = wrap64 q.
Proof.
  unfold QuadPart, of_QuadPart, wrap64; simpl LowPart; simpl HighPart.
  rewrite !Z.mod_mod by lia.
  change (2 ^ 64) with (2 ^ 32 * 2 ^ 32).
  rewrite Z.rem_mul_r by lia. lia.
Qed.

(** With well-formed counters that have not decreased, the unsigned 64-bit
    differences of [getMetric] are the differences of the readings. *)
Lemma deltas_of_monotone_counters (self : CpuMonitor) (r : SystemTimes) :
  let idlePrev := QuadPart (lastIdleTime self) in
  let kernelPrev := QuadPart (lastKernelTime self) in
  let userPrev := QuadPart (lastUserTime self) in
  let idleNow := QuadPart (fileTimeToInt (idleTime r)) in
  let kernelNow := QuadPart (fileTimeToInt (kernelTime r)) in
  let userNow := QuadPart (fileTimeToInt (userTime r)) in
  idlePrev <= idleNow -> kernelPrev <= kernelNow -> userPrev <= userNow ->
  (kernelNow - kernelPrev) + (userNow - userPrev) < 2 ^ 64 ->
  deltaIdle self r = idleNow - idlePrev
  /\ totalSystem self r = (kernelNow - kernelPrev) + (userNow - userPrev).
Proof.
  intros iP kP uP iN kN uN Hi Hk Hu Hsum.
  pose proof (QuadPart_range (lastIdleTime self)).
  pose proof (QuadPart_range (lastKernelTime self)).
  pose proof (QuadPart_range (lastUserTime self)).
  pose proof (QuadPart_range (fileTimeToInt (idleTime r))).
  pose proof (QuadPart_range (fileTimeToInt (kernelTime r))).
  pose proof (QuadPart_range (fileTimeToInt (userTime r))).
  unfold deltaIdle, totalSystem, deltaKernel, deltaUser, wrap64.
  fold iP kP uP iN kN uN. fold iP kP uP iN kN uN in H, H0, H1, H2, H3, H4.
  rewrite (Z.mod_small (iN - iP)) by lia.
  rewrite (Z.mod_small (kN - kP)) by lia.
  rewrite (Z.mod_small (uN - uP)) by lia.
  rewrite Z.mod_small by lia. split; reflexivity.
Qed.

(** The percentage is a finite number between 0 and 100 when the idle
    delta does not exceed the total: each of the three roundings keeps the
    bound. *)
Lemma usage_good dIdle total :
  0 <= dIdle <= total -> 0 < total < 2 ^ 64 ->
  good (usage dIdle total) /\ ulps (usage dIdle total) <= 100 * 2 ^ 1074.
Proof.
  intros Hd Ht.
  destruct (of_Z_u64 dIdle ltac:(lia)) as [HgA HuA].
  destruct (of_Z_u64 total ltac:(lia)) as [HgB HuB].
  pose proof (nearest_mono dIdle total Hd) as Hmono.
  pose proof (nearest_pos total ltac:(lia)) as Hpos.
  assert (HP : 0 < 2 ^ 1074) by (apply pow2_gt0; lia).
  destruct (SFdiv_le_one (of_Z dIdle) (of_Z total) HgA HgB) as [Hgq Huq].
  { rewrite HuB. apply Z.mul_pos_pos; assumption. }
  { rewrite HuA, HuB. apply Z.mul_le_mono_nonneg_r; lia. }
  destruct (SFsub_one_le _ Hgq Huq) as [Hgs Hus].
  destruct (SFmul_hundred_le _ Hgs Hus) as [Hgv Huv].
  rewrite ulps_hundred in Huv. split; assumption.
Qed.

(** Nothing clamps the percentage: an idle delta above the total gives a
    negative value. *)
Lemma usage_is_not_clamped : ltb (usage 100 60) zero = true.
Proof. vm_compute. reflexivity. Qed.

(** X7. Every floating-point division that [getMetric] evaluates, on any call,
    has a divisor different from zero. *)
Lemma getMetric_divisors_nonzero (now : Z) (os : option SystemTimes)
    (self : CpuMonitor) (d : double) :
  In d (divisors (getMetric now os self)) -> eqb d zero = false.
Proof.
  unfold getMetric. destruct os as [r|]; [|intros []].
  destruct (QuadPart (lastIdleTime self) =? 0); [intros []|].
  destruct (Z.eqb_spec (totalSystem self r) 0) as [H0|H0]; [intros []|].
  intros [<-|[]]. apply of_Z_nonzero.
  pose proof (wrap64_range (deltaKernel self r + deltaUser self r)).
  unfold totalSystem in *. lia.
Qed.

Lemma run_app (t1 t2 : list (Z * option SystemTimes)) (self : CpuMonitor) :
  run (t1 ++ t2) self
  = (fst (run t1 self) ++ fst (run t2 (snd (run t1 self))),
     snd (run t2 (snd (run t1 self)))).
Proof.
  revert self. induction t1 as [|[now os] t1 IH]; intros self; simpl.
  - destruct (run t2 self); reflexivity.
  - rewrite IH.
    destruct (run t1 (after (getMetric now os self))) as [outs final].
    reflexivity.
Qed.

Lemma run_failures (clock : list Z) (self : CpuMonitor) :
  run (map (fun now => (now, None)) clock) self
  = (map (fun _ => None) clock, self).
Proof.
  induction clock as [|now clock IH]; simpl; [reflexivity|].
  rewrite IH. reflexivity.
Qed.

(** C2. On a newly constructed [CpuMonitor], the first call of [getMetric]
    that obtains a reading from the OS (after any number of calls whose OS
    call failed) returns no value, and leaves the three stored snapshots
    equal to that reading. *)
Theorem first_reading_becomes_baseline :
  forall (failed : list Z) (now : Z) (r : SystemTimes),
    let '(outs, final) :=
      run (map (fun t => (t, None)) failed ++ [(now, Some r)]) CpuMonitor_new in
    outs = map (fun _ => None) failed ++ [None]
    /\ lastIdleTime final = fileTimeToInt (idleTime r)
    /\ lastKernelTime final = fileTimeToInt (kernelTime r)
    /\ lastUserTime final = fileTimeToInt (userTime r).
Proof.
  intros failed now r.
  rewrite run_app, run_failures. simpl.
  repeat split.
Qed.

(** C3. A call of [getMetric] that finds a baseline (the stored idle count
    is not the unset value 0) and a total different from zero returns the
    Metric whose value is [(1.0 - deltaIdle / total) * 100.0], computed in
    binary64 on the unsigned 64-bit differences between the reading and the
    baseline; while the counters have not decreased these are the
    differences [idleNow - idlePrev] and
    [(kernelNow - kernelPrev) + (userNow - userPrev)].  On the readings idle
    100 then 150, kernel 200 then 240, user 100 then 120, the differences
    are 50 and 60 and the value is the binary64 number
    16.666666666666664..., within [10^-14] of [50/3]. *)
Theorem usage_of_two_readings :
  (forall (now : Z) (self : CpuMonitor) (r : SystemTimes),
      QuadPart (lastIdleTime self) <> 0 ->
      totalSystem self r <> 0 ->
      returned (getMetric now (Some r) self)
      = Some {| component := "CPU"; metric := "Usage";
                value := Double.mul
                           (Double.sub Double.one
                              (Double.div (Double.of_Z (deltaIdle self r))
                                          (Double.of_Z (totalSystem self r))))
                           Double.hundred;
                unit := "%"; timestamp := now |})
  /\ (forall (self : CpuMonitor) (r : SystemTimes),
         QuadPart (lastIdleTime self) <= QuadPart (fileTimeToInt (idleTime r)) ->
         QuadPart (lastKernelTime self) <= QuadPart (fileTimeToInt (kernelTime r)) ->
         QuadPart (lastUserTime self) <= QuadPart (fileTimeToInt (userTime r)) ->
         (QuadPart (fileTimeToInt (kernelTime r)) - QuadPart (lastKernelTime self))
         + (QuadPart (fileTimeToInt (userTime r)) - QuadPart (lastUserTime self))
         < 2 ^ 64 ->
         deltaIdle self r
         = QuadPart (fileTimeToInt (idleTime r)) - QuadPart (lastIdleTime self)
         /\ totalSystem self r
            = (QuadPart (fileTimeToInt (kernelTime r))
               - QuadPart (lastKernelTime self))
              + (QuadPart (fileTimeToInt (userTime r))
                 - QuadPart (lastUserTime self)))
  /\ (let baseline := after (getMetric 1700000000 (Some (reading 100 200 100))
                                       CpuMonitor_new) in
      deltaIdle baseline (reading 150 240 120) = 50
      /\ totalSystem baseline (reading 150 240 120) = 60
      /\ exists m,
          returned (getMetric 1700000001 (Some (reading 150 240 120)) baseline)
          = Some m
          /\ value m = S754_finite false 4691249611844266 (-48)
          /\ (1666 # 100 < to_Q (value m) < 1667 # 100)%Q
          /\ (Qabs (to_Q (value m) - (50 # 3)) < 1 # 100000000000000)%Q).
Proof.
  split; [|split].
  - intros now self r Hb Ht. rewrite getMetric_value by assumption. reflexivity.
  - intros self r Hi Hk Hu Hsum.
    exact (deltas_of_monotone_counters self r Hi Hk Hu Hsum).
  - cbv zeta. split; [reflexivity|]. split; [reflexivity|].
    eexists. split; [vm_compute; reflexivity|].
    split; [reflexivity|]. split; [split; reflexivity|]. reflexivity.
Qed.

Lemma usage_of_two_readings_witness :
  returned (getMetric 1700000001 (Some (reading 150 240 120))
                      (baseline_of (reading 100 200 100)))
  = Some {| component := "CPU"; metric := "Usage";
            value := S754_finite false 4691249611844266 (-48);
            unit := "%"; timestamp := 1700000001 |}.
Proof.
  assert (Hb : QuadPart (lastIdleTime (baseline_of (reading 100 200 100))) <> 0)
    by (vm_compute; discriminate).
  assert (Ht : totalSystem (baseline_of (reading 100 200 100))
                           (reading 150 240 120) <> 0)
    by (vm_compute; discriminate).
  rewrite (proj1 usage_of_two_readings 1700000001 _ _ Hb Ht).
  vm_compute. reflexivity.
Defined.

(** C5. A call of [getMetric] that finds a baseline and a total of zero
    returns the Metric of value [0.0], and evaluates no floating-point
    division at all. *)
Theorem zero_total_gives_zero_without_division :
  forall (now : Z) (self : CpuMonitor) (r : SystemTimes),
    QuadPart (lastIdleTime self) <> 0 ->
    totalSystem self r = 0 ->
    returned (getMetric now (Some r) self)
    = Some {| component := "CPU"; metric := "Usage"; value := Double.zero;
              unit := "%"; timestamp := now |}
    /\ divisors (getMetric now (Some r) self) = [].
Proof.
  intros now self r Hb Ht. rewrite getMetric_degenerate by assumption.
  split; reflexivity.
Qed.

Lemma zero_total_gives_zero_without_division_witness :
  returned (getMetric 1700000001 (Some (reading 150 200 100))
                      (baseline_of (reading 100 200 100)))
  = Some {| component := "CPU"; metric := "Usage"; value := Double.zero;
            unit := "%"; timestamp := 1700000001 |}
  /\ divisors (getMetric 1700000001 (Some (reading 150 200 100))
                         (baseline_of (reading 100 200 100))) = [].
Proof.
  apply zero_total_gives_zero_without_division.
  - vm_compute. discriminate.
  - reflexivity.
Defined.

(** C6. A call of [getMetric] that finds a baseline, a total above zero and
    an idle delta between zero and the total returns a Metric whose value is
    the unclamped result of the formula, and this value is at least [0.0]
    and at most [100.0]. *)
Theorem usage_between_0_and_100 :
  forall (now : Z) (self : CpuMonitor) (r : SystemTimes),
    QuadPart (lastIdleTime self) <> 0 ->
    0 < totalSystem self r ->
    0 <= deltaIdle self r <= totalSystem self r ->
    exists m,
      returned (getMetric now (Some r) self) = Some m
      /\ value m = usage (deltaIdle self r) (totalSystem self r)
      /\ Double.leb Double.zero (value m) = true
      /\ Double.leb (value m) Double.hundred = true
      /\ (0 <= to_Q (value m) <= 100)%Q.
Proof.
  intros now self r Hb Ht Hd.
  rewrite getMetric_value by (try assumption; lia).
  eexists. split; [reflexivity|]. split; [reflexivity|]. simpl value.
  pose proof (wrap64_range (deltaKernel self r + deltaUser self r)) as Hr.
  fold (totalSystem self r) in Hr.
  destruct (usage_good (deltaIdle self r) (totalSystem self r) Hd ltac:(lia))
    as [Hg Hu].
  split; [|split].
  - apply leb_of_ulps; [exact good_zero|exact Hg|apply ulps_nonneg].
  - apply leb_of_ulps; [exact Hg|exact good_hundred|].
    rewrite ulps_hundred. exact Hu.
  - exact (to_Q_bounds _ 100 Hg Hu).
Qed.

Lemma usage_between_0_and_100_witness :
  exists m,
    returned (getMetric 1700000001 (Some (reading 150 240 120))
                        (baseline_of (reading 100 200 100))) = Some m
    /\ value m = usage 50 60
    /\ Double.leb Double.zero (value m) = true
    /\ Double.leb (value m) Double.hundred = true
    /\ (0 <= to_Q (value m) <= 100)%Q.
Proof.
  apply (usage_between_0_and_100 1700000001
           (baseline_of (reading 100 200 100)) (reading 150 240 120)).
  - vm_compute. discriminate.
  - reflexivity.
  - vm_compute. split; discriminate.
Defined.

(** C7. When [GetSystemTimes] fails, [getMetric] returns no Metric and
    leaves the monitor as it was; a call that changes the monitor has
    obtained a reading, and every call that obtains a reading stores it. *)
Theorem failed_reading_changes_nothing :
  forall (now : Z) (self : CpuMonitor),
    returned (getMetric now None self) = None
    /\ after (getMetric now None self) = self
    /\ (forall os, after (getMetric now os self) <> self ->
                   exists r, os = Some r)
    /\ (forall r, after (getMetric now (Some r) self) = baseline_of r).
Proof.
  intros now self. split; [reflexivity|]. split; [reflexivity|]. split.
  - intros [r|] H; [exists r; reflexivity|].
    exfalso. apply H. reflexivity.
  - intros r. apply getMetric_after_success.
Qed.

(** C8. When [GlobalMemoryStatusEx] succeeds, [RamMonitor::getMetric]
    returns the Metric whose value is the conversion of [dwMemoryLoad] to
    [double], which stands for exactly that integer; when it fails, no
    Metric is returned. *)
Theorem ram_metric_is_the_reported_load :
  forall (now : Z),
    RamMonitor_getMetric now None = None
    /\ (forall (memInfo : MEMORYSTATUSEX),
           RamMonitor_getMetric now (Some memInfo)
           = Some {| component := "RAM"; metric := "Usage";
                     value := Double.of_Z (dwMemoryLoad memInfo);
                     unit := "%"; timestamp := now |}
           /\ (DWORD_range (dwMemoryLoad memInfo) ->
               (to_Q (Double.of_Z (dwMemoryLoad memInfo))
                == inject_Z (dwMemoryLoad memInfo))%Q)).
Proof.
  intros now. split; [reflexivity|]. intros memInfo. split; [reflexivity|].
  intros [H0 H32]. apply to_Q_of_Z_exact. split; [assumption|].
  eapply Z.lt_le_trans; [exact H32|]. apply Z.pow_le_mono_r; lia.
Qed.

(** C10. A reading whose cumulative idle count is zero is taken for the
    unset state: the call that receives it (the stored idle count, which
    cannot exceed it, is zero as well) stores it as the baseline and
    returns no Metric, and so does every later call made while the stored
    idle count is zero, whatever it reads. *)
Theorem zero_idle_is_taken_for_unset :
  forall (now : Z) (self : CpuMonitor) (r : SystemTimes),
    QuadPart (fileTimeToInt (idleTime r)) = 0 ->
    QuadPart (lastIdleTime self) <= QuadPart (fileTimeToInt (idleTime r)) ->
    returned (getMetric now (Some r) self) = None
    /\ after (getMetric now (Some r) self) = baseline_of r
    /\ QuadPart (lastIdleTime (after (getMetric now (Some r) self))) = 0
    /\ (forall (later : CpuMonitor) (now' : Z) (r' : SystemTimes),
           QuadPart (lastIdleTime later) = 0 ->
           returned (getMetric now' (Some r') later) = None
           /\ after (getMetric now' (Some r') later) = baseline_of r').
Proof.
  intros now self r Hr Hself.
  assert (H0 : QuadPart (lastIdleTime self) = 0)
    by (pose proof (QuadPart_range (lastIdleTime self)); lia).
  rewrite (getMetric_unset now r self H0).
  split; [reflexivity|]. split; [reflexivity|]. split; [exact Hr|].
  intros later now' r' H.
  rewrite (getMetric_unset now' r' later H). split; reflexivity.
Qed.

Lemma zero_idle_is_taken_for_unset_witness :
  returned (getMetric 1700000000 (Some (reading 0 200 100)) CpuMonitor_new) = None
  /\ returned (getMetric 1700000001 (Some (reading 50 240 120))
                 (after (getMetric 1700000000 (Some (reading 0 200 100))
                                   CpuMonitor_new))) = None.
Proof.
  assert (Hr : QuadPart (fileTimeToInt (idleTime (reading 0 200 100))) = 0)
    by reflexivity.
  assert (Hs : QuadPart (lastIdleTime CpuMonitor_new)
               <= QuadPart (fileTimeToInt (idleTime (reading 0 200 100))))
    by (vm_compute; discriminate).
  destruct (zero_idle_is_taken_for_unset 1700000000 CpuMonitor_new
              (reading 0 200 100) Hr Hs) as (H1 & _ & H3 & H4).
  split; [exact H1|].
  exact (proj1 (H4 _ 1700000001 (reading 50 240 120) H3)).
Defined.

End MonitorSpec.

(** ** The metric store *)

Module StoreSpec.
Import Sqlite DbManager.

Lemma filter_fresh (h : nat) (l : list nat) :
  Forall (fun h' => (h' < h)%nat) l ->
  filter (fun h' => negb (Nat.eqb h h')) l = l.
Proof.
  induction 1 as [|x l Hx _ IH]; simpl; [reflexivity|].
  destruct (Nat.eqb_spec h x) as [->|_]; [lia|].
  simpl. rewrite IH. reflexivity.
Qed.

(** The path of [connect] that the source comments on: when
    [sqlite3_open] fails, the handle it may have written is closed and
    [db] is null again, so the connections are those before the call. *)
Lemma connect_open_failure (dbPath : string) (a : Answers)
    (self : DatabaseManager) (w : World) :
  wf_world w ->
  open_rc a <> SQLITE_OK ->
  exists w',
    connect dbPath a self w = (false, {| db := None |}, w')
    /\ connections w' = connections w
    /\ metrics w' = metrics w.
Proof.
  intros [Hc _] Hrc. unfold connect, sqlite3_open.
  apply Z.eqb_neq in Hrc. rewrite Hrc.
  destruct (open_allocates a); simpl.
  - rewrite Hrc. simpl. eexists. split; [reflexivity|]. simpl.
    rewrite Nat.eqb_refl. simpl.
    split; [|reflexivity]. apply filter_fresh. exact Hc.
  - rewrite Hrc. simpl. eexists. split; [reflexivity|]. split; reflexivity.
Qed.

(** The other failure path of [connect]: when the file opens and the
    schema statement fails, [connect] returns [false] and [db] still holds
    the handle, which is still open. *)
Lemma connect_schema_failure (dbPath : string) (a : Answers)
    (self : DatabaseManager) (w : World) :
  open_rc a = SQLITE_OK ->
  exec_rc a <> SQLITE_OK ->
  exists w',
    connect dbPath a self w = (false, {| db := Some (next_connection w) |}, w')
    /\ is_open (next_connection w) w' = true
    /\ connections w' = next_connection w :: connections w.
Proof.
  intros Hopen Hexec.
  assert (Hne : (exec_rc a =? SQLITE_OK) = false) by (apply Z.eqb_neq; exact Hexec).
  unfold connect, sqlite3_open, initTables, sqlite3_exec, is_open.
  rewrite Hopen. simpl. rewrite Nat.eqb_refl. simpl.
  rewrite Hne. simpl. rewrite Hne. simpl.
  eexists. split; [reflexivity|]. simpl. rewrite Nat.eqb_refl.
  split; reflexivity.
Qed.

(** C1. When the file opens and the schema statement fails
    ([SQLITE_BUSY]: the file is locked by another writer), [connect]
    returns [false] while [db] is not null and the connection it names is
    still open: the handle has not been released on this failure path. *)
Theorem connect_schema_failure_keeps_connection :
  exists w',
    connect "data/syspulse.db" (schema_fails SQLITE_BUSY)
            DatabaseManager_new new_world
    = (false, {| db := Some 1%nat |}, w')
    /\ connections w' = [1%nat]
    /\ is_open 1%nat w' = true.
Proof.
  eexists. split; [vm_compute; reflexivity|]. split; reflexivity.
Qed.

Lemma insertMetric_unconnected (m : Monitor.Metric) (a : Answers)
    (self : DatabaseManager) (w : World) :
  db self = None -> insertMetric m a self w = (false, w).
Proof. intros H. unfold insertMetric. rewrite H. reflexivity. Qed.

(** A store that has been destroyed holds no handle: [insertMetric] on it
    returns [false] and touches nothing. *)
Lemma insertMetric_after_destroy (m : Monitor.Metric) (a : Answers)
    (self : DatabaseManager) (w : World) :
  insertMetric m a (fst (destroy self w)) (snd (destroy self w))
  = (false, snd (destroy self w)).
Proof.
  apply insertMetric_unconnected. unfold destroy.
  destruct self as [[h|]]; reflexivity.
Qed.

(** C4. A call of [insertMetric] that returns [true] has appended exactly
    one row, the row of its metric, to the table; a call that returns
    [false] has left the rows as they were.  It returns [true] exactly
    when the store holds an open handle, the table exists, the statement
    was prepared, the value is a number (a NaN is bound as NULL, which the
    [NOT NULL] column refuses) and the execution completed. *)
Theorem insertMetric_one_row_or_none :
  forall (m : Monitor.Metric) (a : Answers) (self : DatabaseManager)
         (w : World),
    let '(ok, w') := insertMetric m a self w in
    (ok = true -> metrics w' = metrics w ++ [row_of m])
    /\ (ok = false -> metrics w' = metrics w)
    /\ (ok = true <->
        (exists h, db self = Some h /\ is_open h w = true)
        /\ has_metrics w = true
        /\ prepare_rc a = SQLITE_OK
        /\ Double.is_nan (Monitor.value m) = false
        /\ step_rc a = SQLITE_DONE).
Proof.
  intros m a [[h|]] w; unfold insertMetric; simpl.
  2:{ (* no handle *)
      split; [discriminate|]. split; [reflexivity|].
      split; [discriminate|]. intros ((h & Hh & _) & _). discriminate. }
  unfold sqlite3_prepare_v2.
  destruct (is_open h w) eqn:Hopen; simpl.
  2:{ (* the handle is not open *)
      split; [discriminate|]. split; [reflexivity|].
      split; [discriminate|]. intros ((h' & Hh' & Hh) & _).
      injection Hh' as <-. congruence. }
  destruct (has_metrics w) eqn:Htab; simpl.
  2:{ (* no table *)
      split; [discriminate|]. split; [reflexivity|].
      split; [discriminate|]. intros (_ & Hf & _). discriminate. }
  destruct (Z.eqb_spec (prepare_rc a) SQLITE_OK) as [Hp|Hp]; simpl.
  2:{ (* the statement could not be prepared *)
      pose proof Hp as Hp'. apply Z.eqb_neq in Hp'. rewrite Hp'.
      split; [discriminate|]. split; [reflexivity|].
      split; [discriminate|]. intros (_ & _ & Hf & _). contradiction. }
  unfold sqlite3_step, row_of_stmt. simpl. rewrite Nat.eqb_refl. simpl.
  destruct (Z.eqb_spec (step_rc a) SQLITE_DONE) as [Hs|Hs]; simpl.
  - destruct (Double.is_nan (Monitor.value m)) eqn:Hn; simpl.
    + (* a NaN: the constraint fails, no row *)
      split; [discriminate|]. split; [reflexivity|].
      split; [discriminate|]. intros (_ & _ & _ & Hf & _). discriminate.
    + (* executed *)
      split; [reflexivity|]. split; [discriminate|].
      split; [intros _|reflexivity].
      split; [exists h; split; [reflexivity|assumption]|].
      repeat split; assumption.
  - (* the execution failed: the statement is finalized, no row *)
    pose proof Hs as Hs'. apply Z.eqb_neq in Hs'. rewrite Hs'.
    split; [discriminate|]. split; [reflexivity|].
    split; [discriminate|]. intros (_ & _ & _ & _ & Hf). contradiction.
Qed.

(** On a store that [connect] has just opened, with SQLite answering
    every call with success, [insertMetric] returns [true] and the row of
    the metric is the one row of the table. *)
Lemma insertMetric_one_row_or_none_witness :
  let '(_, self, w) :=
    connect "data/syspulse.db" all_ok DatabaseManager_new new_world in
  let '(ok, w') := insertMetric sample all_ok self w in
  ok = true /\ metrics w' = [row_of sample].
Proof.
  pose proof (insertMetric_one_row_or_none sample all_ok
                {| db := Some 1%nat |}
                (snd (connect "data/syspulse.db" all_ok DatabaseManager_new
                        new_world))) as H.
  change (connect "data/syspulse.db" all_ok DatabaseManager_new new_world)
    with (true, {| db := Some 1%nat |},
          snd (connect "data/syspulse.db" all_ok DatabaseManager_new new_world)).
  cbv iota beta.
  destruct (insertMetric sample all_ok _ _) as [ok w'].
  destruct H as (Hrow & _ & Hok).
  assert (E : ok = true).
  { apply Hok. split; [exists 1%nat; split; reflexivity|].
    repeat split; reflexivity. }
  split; [exact E|]. exact (Hrow E).
Defined.

(** Every statement [insertMetric] prepares is finalized before it
    returns, on the success path and on the failure paths. *)
Lemma insertMetric_finalizes (m : Monitor.Metric) (a : Answers)
    (self : DatabaseManager) (w : World) :
  wf_world w ->
  statements (snd (insertMetric m a self w)) = statements w.
Proof.
  intros [_ Hs]. destruct self as [[h|]]; unfold insertMetric; simpl;
    [|reflexivity].
  unfold sqlite3_prepare_v2.
  destruct (negb (is_open h w)); [reflexivity|]. simpl.
  destruct (negb (has_metrics w)); [reflexivity|].
  destruct (prepare_rc a =? SQLITE_OK) eqn:Hp; simpl.
  2:{ destruct (prepare_rc a =? SQLITE_OK); reflexivity. }
  unfold sqlite3_step, row_of_stmt. simpl. rewrite Nat.eqb_refl. simpl.
  destruct (step_rc a =? SQLITE_DONE) eqn:Hd; simpl.
  - destruct (Double.is_nan (Monitor.value m)); simpl;
      rewrite Nat.eqb_refl; simpl; apply filter_fresh; exact Hs.
  - destruct (step_rc a =? SQLITE_DONE); simpl;
      rewrite Nat.eqb_refl; simpl; apply filter_fresh; exact Hs.
Qed.

(** C9. A store whose only [connect] has returned [false] because the
    schema statement failed (the file, left by an earlier run with the
    table and no row, was locked at that moment) has never been opened;
    [insertMetric] on it nevertheless returns [true] and appends a row. *)
Theorem insertMetric_on_unopened_store :
  let '(state, self, w) :=
    history [CallConnect "data/syspulse.db" (schema_fails SQLITE_BUSY)]
            (world_with []) in
  state = Unopened
  /\ fst (insertMetric sample all_ok self w) = true
  /\ metrics (snd (insertMetric sample all_ok self w)) = [row_of sample].
Proof. vm_compute. repeat split. Qed.

End StoreSpec.


(** ** More on rounding in binary64 *)

Module DoubleMore.
Import Double DoubleFacts.

(** A canonical positive number is determined by its value. *)
Lemma good_unique x y :
  good x -> good y -> 0 < ulps x -> ulps x = ulps y -> x = y.
Proof.
  intros Hx Hy Hpos Heq.
  destruct x as [sx| | |sx mx ex]; try (unfold ulps in Hpos; lia).
  destruct sx; [unfold ulps in Hpos; lia|].
  destruct y as [sy| | |sy my ey]; try (unfold ulps in Heq, Hpos; lia).
  destruct sy; [unfold ulps in Heq, Hpos; lia|].
  destruct (good_finite_inv _ _ Hx) as (Hex & Hdx & Hnx).
  destruct (good_finite_inv _ _ Hy) as (Hey & Hdy & Hny).
  unfold ulps in Heq.
  assert (Hcase : forall m1 e1 m2 e2,
             -1074 <= e2 -> e2 < e1 ->
             Zdigits2 (Zpos m1) = 53 -> Zdigits2 (Zpos m2) <= 53 ->
             Zpos m1 * 2 ^ (e1 + 1074) = Zpos m2 * 2 ^ (e2 + 1074) -> False).
  { intros m1 e1 m2 e2 He2 Hlt Hd1 Hd2 H.
    destruct (Zdigits2_bounds (Zpos m1) ltac:(lia)) as [Hl _].
    destruct (Zdigits2_bounds (Zpos m2) ltac:(lia)) as [_ Hu].
    rewrite Hd1 in Hl.
    assert (Hu' : Zpos m2 < 2 ^ 53).
    { eapply Z.lt_le_trans; [exact Hu|]. apply Z.pow_le_mono_r; lia. }
    replace (e1 + 1074) with ((e1 - e2) + (e2 + 1074)) in H by lia.
    rewrite Z.pow_add_r in H by lia.
    pose proof (pow2_gt0 (e2 + 1074) ltac:(lia)) as Hp.
    assert (Hq : 2 <= 2 ^ (e1 - e2)).
    { change 2 with (2 ^ 1) at 1. apply Z.pow_le_mono_r; lia. }
    change (2 ^ (53 - 1)) with 4503599627370496 in Hl.
    change (2 ^ 53) with 9007199254740992 in Hu'.
    assert (Hmq : 9007199254740992 <= Zpos m1 * 2 ^ (e1 - e2)) by nia.
    rewrite Z.mul_assoc in H. nia. }
  destruct (Z.lt_trichotomy ex ey) as [Hlt|[He|Hgt]].
  - exfalso. apply (Hcase my ey mx ex); lia.
  - subst ey. pose proof (pow2_gt0 (ex + 1074) ltac:(lia)) as Hp.
    assert (Zpos mx = Zpos my) by nia. congruence.
  - exfalso. apply (Hcase mx ex my ey); lia.
Qed.

(** A positive 64-bit integer converts to a positive finite number. *)
Lemma of_Z_finite z :
  0 < z < 2 ^ 64 ->
  exists m e, of_Z z = S754_finite false m e /\ good (S754_finite false m e).
Proof.
  intros Hz. destruct (of_Z_u64 z ltac:(lia)) as [Hg Hu].
  pose proof (nearest_pos z ltac:(lia)) as Hpos.
  assert (HP : 0 < 2 ^ 1074) by (apply pow2_gt0; lia).
  assert (0 < ulps (of_Z z)) by (rewrite Hu; apply Z.mul_pos_pos; assumption).
  destruct (of_Z z) as [s| | |[] m e]; try (unfold ulps in *; lia).
  exists m, e. split; [reflexivity|exact Hg].
Qed.

(** A positive number divided by itself is exactly one. *)
Lemma SFdiv_self m e :
  good (S754_finite false m e) ->
  SFdiv prec emax (S754_finite false m e) (S754_finite false m e) = one.
Proof.
  intros Hg.
  destruct (good_finite_inv _ _ Hg) as (He & Hd & _).
  unfold SFdiv, SFdiv_core_binary.
  replace (Zdigits2 (Z.pos m) + e - (Zdigits2 (Z.pos m) + e)) with 0 by lia.
  rewrite Z.sub_diag.
  change (Z.min (fexp prec emax 0) 0) with (-53).
  change (0 - -53) with 53.
  rewrite Z.shiftl_mul_pow2 by lia.
  rewrite div_eucl_eq. cbv iota beta. change (xorb false false) with false.
  pose proof (Z.mod_pos_bound (Zpos m * 2 ^ 53) (Zpos m) ltac:(lia)) as Hr.
  rewrite new_location_loc by lia. fold (loc (Zpos m * 2 ^ 53) (Zpos m)).
  assert (Hq : Zpos m * 2 ^ 53 / Zpos m = 2 ^ 53).
  { rewrite Z.mul_comm. apply Z.div_mul. lia. }
  pose proof (binary_round_aux_spec (Zpos m * 2 ^ 53) (Zpos m) (-53)
                ltac:(lia) ltac:(lia)) as H.
  rewrite Hq in H. change (fexp prec emax (Zdigits2 (2 ^ 53) + -53)) with (-52) in H.
  specialize (H ltac:(lia) ltac:(lia)). cbv zeta in H.
  rewrite Hq. destruct H as [Hgr Hu].
  change (-52 - -53) with 1 in Hu. change (2 ^ 1) with 2 in Hu.
  assert (Hrne : rne (Zpos m * 2 ^ 53) (Zpos m * 2) = 2 ^ 52).
  { replace (Zpos m * 2 ^ 53) with (2 ^ 52 * (Zpos m * 2))
      by (change (2 ^ 53) with (2 ^ 52 * 2); ring).
    rewrite rne_exact by (try lia; apply Z.mod_mul; lia).
    apply Z.div_mul. lia. }
  rewrite Hrne in Hu.
  apply good_unique; [exact Hgr|exact good_one| |].
  - rewrite Hu. apply Z.mul_pos_pos; apply pow2_gt0; lia.
  - rewrite Hu, ulps_one. rewrite <- Z.pow_add_r by lia. reflexivity.
Qed.

Lemma shr_1_nonneg mrs : 0 <= shr_m mrs -> 0 <= shr_m (shr_1 mrs).
Proof.
  destruct mrs as [m r s]. simpl. destruct m as [|[p|p|]|p]; simpl; lia.
Qed.

Lemma iter_pos_shr_1_nonneg p :
  forall mrs, 0 <= shr_m mrs -> 0 <= shr_m (iter_pos shr_1 p mrs).
Proof.
  induction p as [p IH|p IH|]; intros mrs H; simpl iter_pos.
  - apply IH, IH, shr_1_nonneg, H.
  - apply IH, IH, H.
  - apply shr_1_nonneg, H.
Qed.

Lemma shr_fexp_nonneg m e l :
  0 <= m -> 0 <= shr_m (fst (shr_fexp prec emax m e l)).
Proof.
  intros Hm. unfold shr_fexp, shr.
  destruct (fexp prec emax (Zdigits2 m + e) - e) as [|p|p]; simpl fst;
    try (rewrite shr_m_of_loc; exact Hm).
  apply iter_pos_shr_1_nonneg. rewrite shr_m_of_loc. exact Hm.
Qed.

Lemma round_nearest_even_nonneg m l : 0 <= m -> 0 <= round_nearest_even m l.
Proof.
  intros Hm. unfold round_nearest_even.
  destruct l as [|[]]; try lia; destruct (Z.even m); lia.
Qed.

(** No rounding of a non-negative mantissa gives a NaN. *)
Lemma binary_round_aux_not_nan sx mx ex lx :
  0 <= mx -> is_nan (binary_round_aux prec emax sx mx ex lx) = false.
Proof.
  intros Hm. unfold binary_round_aux.
  pose proof (shr_fexp_nonneg mx ex lx Hm) as H1.
  destruct (shr_fexp prec emax mx ex lx) as [mrs' e']. simpl in H1.
  pose proof (shr_fexp_nonneg _ e' loc_Exact
                (round_nearest_even_nonneg _ (loc_of_shr_record mrs') H1)) as H2.
  destruct (shr_fexp prec emax _ e' loc_Exact) as [mrs'' e'']. simpl in H2.
  destruct (shr_m mrs'') as [|m|m]; [reflexivity| |lia].
  destruct (e'' <=? emax - prec); reflexivity.
Qed.

Lemma binary_normalize_not_nan m e szero :
  is_nan (binary_normalize prec emax m e szero) = false.
Proof.
  unfold binary_normalize. destruct m as [|p|p]; [reflexivity| |];
    unfold binary_round;
    destruct (shl_align _ _ _) as [mz ez]; apply binary_round_aux_not_nan; lia.
Qed.

Lemma of_Z_not_nan z : is_nan (of_Z z) = false.
Proof. apply binary_normalize_not_nan. Qed.

Lemma div_not_nan x sy my ey :
  is_nan x = false -> is_nan (div x (S754_finite sy my ey)) = false.
Proof.
  intros Hx. destruct x as [sx|sx| |sx mx ex]; try reflexivity; [discriminate|].
  unfold div, SFdiv, SFdiv_core_binary.
  match goal with |- context [Z.div_eucl ?a ?b] =>
    pose proof (Z_div_mod a b ltac:(lia)) as Hdm;
    assert (Ha : 0 <= a); [|destruct (Z.div_eucl a b) as [q r]] end.
  { destruct (ex - ey - _) as [|p|p]; try lia. apply Z.shiftl_nonneg. lia. }
  apply binary_round_aux_not_nan. destruct Hdm as [Hq Hr]. nia.
Qed.

Lemma sub_one_not_nan x : is_nan x = false -> is_nan (sub one x) = false.
Proof.
  intros Hx. destruct x as [sx|sx| |sx mx ex]; try reflexivity; [discriminate|].
  unfold sub, one, SFsub. apply binary_normalize_not_nan.
Qed.

Lemma mul_hundred_not_nan x : is_nan x = false -> is_nan (mul x hundred) = false.
Proof.
  intros Hx. destruct x as [sx|sx| |sx mx ex]; try reflexivity; [discriminate|].
  unfold mul, hundred, SFmul. apply binary_round_aux_not_nan. lia.
Qed.

(** The formula of the samplers never gives a NaN when the total is not
    zero. *)
Lemma usage_not_nan dIdle total :
  0 < total < 2 ^ 64 -> is_nan (Monitor.usage dIdle total) = false.
Proof.
  intros Ht. unfold Monitor.usage.
  destruct (of_Z_finite total Ht) as (m & e & -> & _).
  apply mul_hundred_not_nan, sub_one_not_nan, div_not_nan, of_Z_not_nan.
Qed.

(** A number compares equal to itself. *)
Lemma eqb_refl x : is_nan x = false -> eqb x x = true.
Proof.
  destruct x as [s|s| |s m e]; try discriminate; intros _;
    unfold eqb, SFeqb, SFcompare.
  - reflexivity.
  - destruct s; reflexivity.
  - destruct s; rewrite Z.compare_refl, Pos.compare_cont_refl; reflexivity.
Qed.

End DoubleMore.

(** ** More on the samplers *)

Module MonitorMore.
Import Double DoubleFacts DoubleMore Win32 Monitor MonitorSpec Main.

(** X1. [fileTimeToInt] joins the two words of a [FILETIME]: the 64-bit value is
    [low + high * 2 ^ 32], and writing it back gives the same two words. *)
Theorem fileTimeToInt_joins_the_words :
  forall (ft : FILETIME),
    DWORD_range (dwLowDateTime ft) -> DWORD_range (dwHighDateTime ft) ->
    QuadPart (fileTimeToInt ft)
    = dwLowDateTime ft + dwHighDateTime ft * 2 ^ 32
    /\ 0 <= QuadPart (fileTimeToInt ft) < 2 ^ 64
    /\ of_QuadPart (QuadPart (fileTimeToInt ft)) = fileTimeToInt ft.
Proof.
  intros [lo hi] Hlo Hhi. unfold DWORD_range in *. simpl in Hlo, Hhi.
  unfold QuadPart, fileTimeToInt, of_QuadPart. cbn [LowPart HighPart dwLowDateTime dwHighDateTime].
  rewrite (Z.mod_small lo), (Z.mod_small hi) by lia.
  split; [reflexivity|]. split; [change (2 ^ 64) with (2 ^ 32 * 2 ^ 32); nia|].
  f_equal.
  - rewrite Z.mod_add by lia. apply Z.mod_small. lia.
  - rewrite Z.div_add by lia. rewrite (Z.div_small lo) by lia.
    apply Z.mod_small. lia.
Qed.

Lemma fileTimeToInt_joins_the_words_witness :
  QuadPart (fileTimeToInt {| dwLowDateTime := 7; dwHighDateTime := 3 |})
  = 7 + 3 * 2 ^ 32.
Proof.
  apply (fileTimeToInt_joins_the_words {| dwLowDateTime := 7; dwHighDateTime := 3 |});
    unfold DWORD_range; simpl; lia.
Defined.

(** X2. The unsigned differences are the elapsed ticks modulo [2 ^ 64], also
    when a counter has wrapped around: the stored count plus the difference
    is the count just read. *)
Theorem deltas_reach_the_reading :
  forall (self : CpuMonitor) (r : SystemTimes),
    wrap64 (QuadPart (lastIdleTime self) + deltaIdle self r)
    = QuadPart (fileTimeToInt (idleTime r))
    /\ wrap64 (QuadPart (lastKernelTime self) + deltaKernel self r)
       = QuadPart (fileTimeToInt (kernelTime r))
    /\ wrap64 (QuadPart (lastUserTime self) + deltaUser self r)
       = QuadPart (fileTimeToInt (userTime r)).
Proof.
  intros self r.
  assert (H : forall a b, 0 <= b < 2 ^ 64 -> wrap64 (a + wrap64 (b - a)) = b).
  { intros a b Hb. unfold wrap64. rewrite Zplus_mod_idemp_r.
    replace (a + (b - a)) with b by lia. apply Z.mod_small. exact Hb. }
  unfold deltaIdle, deltaKernel, deltaUser.
  repeat split; apply H; apply QuadPart_range.
Qed.

(** X3. After a run, the monitor holds the last reading the run has obtained,
    and is as before when the run has obtained none. *)
Theorem run_keeps_the_last_reading :
  forall (ticks : list (Z * option SystemTimes)) (self : CpuMonitor),
    snd (run ticks self)
    = match last_reading ticks with
      | Some r => baseline_of r
      | None => self
      end.
Proof.
  induction ticks as [|[now os] rest IH]; intros self; [reflexivity|].
  simpl run. destruct (run rest (after (getMetric now os self))) as [outs final] eqn:Hrun.
  simpl snd. 
  pose proof (IH (after (getMetric now os self))) as H. rewrite Hrun in H.
  simpl in H. rewrite H. simpl last_reading.
  destruct (last_reading rest) as [r|]; [reflexivity|].
  destruct os as [r|]; [apply getMetric_after_success|reflexivity].
Qed.

Lemma run_with_baseline (ticks : list (Z * option SystemTimes)) :
  idle_nonzero ticks ->
  forall self, QuadPart (lastIdleTime self) <> 0 ->
    metrics_returned (fst (run ticks self)) = readings ticks.
Proof.
  induction 1 as [|[now os] rest Hx _ IH]; intros self Hself; [reflexivity|].
  simpl run.
  destruct (run rest (after (getMetric now os self))) as [outs final] eqn:Hrun.
  unfold metrics_returned, readings in *. simpl fst. simpl in Hx.
  destruct os as [r|].
  - specialize (IH (after (getMetric now (Some r) self))).
    rewrite Hrun in IH. simpl fst in IH.
    rewrite getMetric_after_success in IH. specialize (IH Hx).
    assert (Hsome : exists m, returned (getMetric now (Some r) self) = Some m).
    { unfold getMetric. apply Z.eqb_neq in Hself. rewrite Hself.
      destruct (totalSystem self r =? 0); eexists; reflexivity. }
    destruct Hsome as [m ->]. simpl. rewrite IH. reflexivity.
  - specialize (IH (after (getMetric now None self))).
    rewrite Hrun in IH. simpl in IH. specialize (IH Hself).
    simpl. exact IH.
Qed.

(** X4. A run on a new monitor whose readings have non-zero idle counts returns
    one Metric for every reading but the first. *)
Theorem run_returns_a_metric_per_reading_but_the_first :
  forall (ticks : list (Z * option SystemTimes)),
    idle_nonzero ticks ->
    metrics_returned (fst (run ticks CpuMonitor_new))
    = pred (readings ticks).
Proof.
  induction 1 as [|[now os] rest Hx Hrest IH]; [reflexivity|].
  simpl run.
  destruct (run rest (after (getMetric now os CpuMonitor_new))) as [outs final] eqn:Hrun.
  simpl fst. simpl in Hx. destruct os as [r|].
  - pose proof (run_with_baseline rest Hrest (baseline_of r) Hx) as H.
    rewrite (getMetric_unset now r CpuMonitor_new) in Hrun by reflexivity.
    simpl after in Hrun. rewrite Hrun in H. simpl fst in H.
    rewrite (getMetric_unset now r CpuMonitor_new) by reflexivity.
    unfold metrics_returned, readings in *. simpl. exact H.
  - simpl after in Hrun. rewrite Hrun in IH. simpl fst in IH.
    unfold metrics_returned, readings in *. simpl. exact IH.
Qed.

Lemma run_returns_a_metric_per_reading_but_the_first_witness :
  metrics_returned
    (fst (run [(1, Some (reading 100 200 100)); (2, None);
               (3, Some (reading 150 240 120)); (4, Some (reading 150 240 120))]
              CpuMonitor_new)) = 2%nat.
Proof.
  rewrite run_returns_a_metric_per_reading_but_the_first; [reflexivity|].
  repeat constructor; vm_compute; discriminate.
Defined.

(** X5. With no idle tick in the interval the value is exactly [100.0]. *)
Theorem no_idle_tick_gives_100 :
  forall (now : Z) (self : CpuMonitor) (r : SystemTimes),
    QuadPart (lastIdleTime self) <> 0 ->
    totalSystem self r <> 0 ->
    deltaIdle self r = 0 ->
    returned (getMetric now (Some r) self)
    = Some {| component := "CPU"; metric := "Usage"; value := Double.hundred;
              unit := "%"; timestamp := now |}.
Proof.
  intros now self r Hb Ht Hd. rewrite getMetric_value by assumption.
  simpl returned. rewrite Hd. do 2 f_equal.
  pose proof (wrap64_range (deltaKernel self r + deltaUser self r)) as Hr.
  fold (totalSystem self r) in Hr.
  destruct (of_Z_finite (totalSystem self r) ltac:(lia)) as (m & e & Hm & _).
  unfold usage. rewrite Hm. reflexivity.
Qed.

Lemma no_idle_tick_gives_100_witness :
  returned (getMetric 2 (Some (reading 100 240 120))
                      (baseline_of (reading 100 200 100)))
  = Some {| component := "CPU"; metric := "Usage"; value := Double.hundred;
            unit := "%"; timestamp := 2 |}.
Proof.
  apply no_idle_tick_gives_100.
  - vm_compute. discriminate.
  - vm_compute. discriminate.
  - reflexivity.
Defined.

(** X6. With only idle ticks in the interval the value is exactly [0.0]. *)
Theorem only_idle_ticks_give_0 :
  forall (now : Z) (self : CpuMonitor) (r : SystemTimes),
    QuadPart (lastIdleTime self) <> 0 ->
    totalSystem self r <> 0 ->
    deltaIdle self r = totalSystem self r ->
    returned (getMetric now (Some r) self)
    = Some {| component := "CPU"; metric := "Usage"; value := Double.zero;
              unit := "%"; timestamp := now |}.
Proof.
  intros now self r Hb Ht Hd. rewrite getMetric_value by assumption.
  simpl returned. rewrite Hd. do 2 f_equal.
  pose proof (wrap64_range (deltaKernel self r + deltaUser self r)) as Hr.
  fold (totalSystem self r) in Hr.
  destruct (of_Z_finite (totalSystem self r) ltac:(lia)) as (m & e & Hm & Hg).
  unfold usage, Double.div. rewrite Hm, (SFdiv_self m e Hg). reflexivity.
Qed.

Lemma only_idle_ticks_give_0_witness :
  returned (getMetric 2 (Some (reading 160 240 120))
                      (baseline_of (reading 100 200 100)))
  = Some {| component := "CPU"; metric := "Usage"; value := Double.zero;
            unit := "%"; timestamp := 2 |}.
Proof.
  apply only_idle_ticks_give_0.
  - vm_compute. discriminate.
  - vm_compute. discriminate.
  - reflexivity.
Defined.

Lemma getMetric_divisors_nonzero_witness :
  eqb (of_Z 60) zero = false.
Proof.
  apply (getMetric_divisors_nonzero 1700000001 (Some (reading 150 240 120))
           (baseline_of (reading 100 200 100))).
  vm_compute. left. reflexivity.
Defined.

End MonitorMore.

(** ** The samplers of the revisions 0.1 and 0.2 *)

Module MonitorV1Spec.
Import Double DoubleFacts DoubleMore Win32 Monitor MonitorSpec MonitorV1.

(** X18. The earlier [getUsage] and [getMetric] agree: they leave the monitor in
    the same state, a returned Metric carries the value [getUsage] returns,
    and where [getMetric] returns nothing [getUsage] returns [-1.0] for a
    failed OS call and [0.0] for the call that sets the baseline. *)
Theorem getUsage_agrees_with_getMetric :
  forall (now : Z) (os : option SystemTimes) (self : CpuMonitor),
    snd (getUsage os self) = after (getMetric now os self)
    /\ match returned (getMetric now os self) with
       | Some m => fst (getUsage os self) = value m
       | None =>
         fst (getUsage os self)
         = match os with None => minus_one | Some _ => Double.zero end
       end.
Proof.
  intros now os self. unfold getUsage, getMetric.
  destruct os as [r|]; [|split; reflexivity].
  destruct (QuadPart (lastIdleTime self) =? 0); [split; reflexivity|].
  destruct (totalSystem self r =? 0); split; reflexivity.
Qed.

(** X19. The error value [-1.0] of [getUsage] cannot be taken for a reading:
    it is below [0.0], while every value returned after a successful OS
    call is at least [0.0] as long as the idle delta does not exceed the
    total. *)
Theorem getUsage_error_value_is_apart :
  forall (self : CpuMonitor),
    fst (getUsage None self) = minus_one
    /\ Double.leb Double.zero minus_one = false
    /\ (forall r, deltaIdle self r <= totalSystem self r ->
                  Double.leb Double.zero (fst (getUsage (Some r) self)) = true).
Proof.
  intros self. split; [reflexivity|]. split; [reflexivity|].
  intros r Hd. unfold getUsage.
  destruct (QuadPart (lastIdleTime self) =? 0); [reflexivity|].
  destruct (Z.eqb_spec (totalSystem self r) 0) as [H0|H0]; [reflexivity|].
  simpl fst.
  pose proof (wrap64_range (deltaKernel self r + deltaUser self r)) as Hr.
  fold (totalSystem self r) in Hr.
  pose proof (wrap64_range (QuadPart (fileTimeToInt (idleTime r))
                            - QuadPart (lastIdleTime self))) as Hi.
  fold (deltaIdle self r) in Hi.
  destruct (usage_good (deltaIdle self r) (totalSystem self r)
              ltac:(lia) ltac:(lia)) as [Hg _].
  apply leb_of_ulps; [exact good_zero|exact Hg|apply ulps_nonneg].
Qed.

(** X20. [RamMonitor::getUsage] returns [-1.0], which is below [0.0], when the
    OS call fails, and otherwise the reported load, exactly, which is at
    least [0.0]. *)
Theorem RamMonitor_getUsage_error_value_is_apart :
  RamMonitor_getUsage None = minus_one
  /\ Double.leb Double.zero minus_one = false
  /\ (forall memInfo, DWORD_range (dwMemoryLoad memInfo) ->
        Double.leb Double.zero (RamMonitor_getUsage (Some memInfo)) = true
        /\ (to_Q (RamMonitor_getUsage (Some memInfo))
            == inject_Z (dwMemoryLoad memInfo))%Q).
Proof.
  split; [reflexivity|]. split; [reflexivity|].
  intros memInfo [H0 H32]. unfold RamMonitor_getUsage.
  assert (H53 : 2 ^ 32 <= 2 ^ 53) by (apply Z.pow_le_mono_r; lia).
  assert (H64 : 2 ^ 32 <= 2 ^ 64) by (apply Z.pow_le_mono_r; lia).
  split.
  - destruct (of_Z_u64 (dwMemoryLoad memInfo) ltac:(lia)) as [Hg _].
    apply leb_of_ulps; [exact good_zero|exact Hg|apply ulps_nonneg].
  - apply to_Q_of_Z_exact. lia.
Qed.

(** X21. A monitor of the earlier revisions whose constructor has obtained a
    reading (with a non-zero idle count) has its baseline: the first call of
    [getUsage] measures the interval since the construction instead of
    answering the [0.0] of a call without baseline. *)
Theorem constructor_takes_the_baseline :
  forall (r r' : SystemTimes),
    QuadPart (fileTimeToInt (idleTime r)) <> 0 ->
    totalSystem (baseline_of r) r' <> 0 ->
    CpuMonitor_new (Some r) = baseline_of r
    /\ getUsage (Some r') (CpuMonitor_new (Some r))
       = (usage (deltaIdle (baseline_of r) r') (totalSystem (baseline_of r) r'),
          baseline_of r').
Proof.
  intros r r' Hi Ht.
  assert (Hc : CpuMonitor_new (Some r) = baseline_of r) by reflexivity.
  split; [exact Hc|]. rewrite Hc. unfold getUsage.
  apply Z.eqb_neq in Hi. apply Z.eqb_neq in Ht.
  change (QuadPart (lastIdleTime (baseline_of r)))
    with (QuadPart (fileTimeToInt (idleTime r))).
  rewrite Hi, Ht. reflexivity.
Qed.

Lemma constructor_takes_the_baseline_witness :
  fst (getUsage (Some (reading 150 240 120))
                (CpuMonitor_new (Some (reading 100 200 100))))
  = usage 50 60.
Proof.
  assert (Hi : QuadPart (fileTimeToInt (idleTime (reading 100 200 100))) <> 0)
    by (vm_compute; discriminate).
  assert (Ht : totalSystem (baseline_of (reading 100 200 100))
                           (reading 150 240 120) <> 0)
    by (vm_compute; discriminate).
  rewrite (proj2 (constructor_takes_the_baseline _ _ Hi Ht)). reflexivity.
Defined.

End MonitorV1Spec.

(** ** More on the metric store *)

Module StoreMore.
Import Sqlite DbManager StoreSpec.

Lemma existsb_filter_out (h : nat) (l : list nat) :
  existsb (Nat.eqb h) (filter (fun h' => negb (Nat.eqb h h')) l) = false.
Proof.
  induction l as [|x l IH]; [reflexivity|]. simpl.
  destruct (Nat.eqb h x) eqn:E; simpl; [exact IH|]. rewrite E. exact IH.
Qed.

(** What [connect] does, path by path. *)
Lemma connect_cases (dbPath : string) (a : Answers) (self : DatabaseManager)
    (w : World) :
  let h := next_connection w in
  let w_alloc := snd (allocate w) in
  connect dbPath a self w
  = if open_rc a =? SQLITE_OK then
      if exec_rc a =? SQLITE_OK then
        (true, {| db := Some h |},
         {| connections := h :: connections w; next_connection := S h;
            statements := statements w; next_statement := next_statement w;
            messages := messages w;
            has_metrics := true; metrics := metrics w |})
      else
        (false, {| db := Some h |}, w_alloc)
    else if open_allocates a then
      (false, {| db := None |}, sqlite3_close h w_alloc)
    else (false, {| db := None |}, w).
Proof.
  intros h w_alloc. unfold connect, sqlite3_open.
  destruct (open_rc a =? SQLITE_OK) eqn:Ho.
  - simpl. unfold initTables, sqlite3_exec, is_open. simpl.
    rewrite Nat.eqb_refl. simpl.
    destruct (exec_rc a =? SQLITE_OK) eqn:He; simpl.
    + reflexivity.
    + rewrite He. simpl. reflexivity.
  - destruct (open_allocates a); simpl; rewrite Ho; reflexivity.
Qed.

(** X8. [connect] leaves the rows of the table, the prepared statements and the
    error messages as they were, whether it succeeds or fails: setting up
    the schema does not touch existing rows, and the message of a failed
    schema statement is freed. *)
Theorem connect_keeps_rows :
  forall (dbPath : string) (a : Answers) (self : DatabaseManager) (w : World),
    let '(_, _, w') := connect dbPath a self w in
    metrics w' = metrics w
    /\ statements w' = statements w
    /\ messages w' = messages w.
Proof.
  intros dbPath a self w. rewrite connect_cases. cbv zeta.
  destruct (open_rc a =? SQLITE_OK).
  - destruct (exec_rc a =? SQLITE_OK); repeat split.
  - destruct (open_allocates a); repeat split.
Qed.

(** X9. [connect] returns [true] exactly when the file opens and the schema
    statement succeeds; the store then holds an open connection and the
    table exists. *)
Theorem connect_succeeds_iff :
  forall (dbPath : string) (a : Answers) (self : DatabaseManager) (w : World),
    let '(ok, self', w') := connect dbPath a self w in
    (ok = true <-> open_rc a = SQLITE_OK /\ exec_rc a = SQLITE_OK)
    /\ (ok = true ->
        exists h, db self' = Some h /\ is_open h w' = true
                  /\ has_metrics w' = true).
Proof.
  intros dbPath a self w. rewrite connect_cases. cbv zeta.
  destruct (Z.eqb_spec (open_rc a) SQLITE_OK) as [Ho|Ho].
  - destruct (Z.eqb_spec (exec_rc a) SQLITE_OK) as [He|He].
    + split; [tauto|]. intros _. eexists. split; [reflexivity|].
      split; [|reflexivity]. unfold is_open. simpl. rewrite Nat.eqb_refl.
      reflexivity.
    + split; [split; [discriminate|tauto]|discriminate].
  - destruct (open_allocates a);
      (split; [split; [discriminate|tauto]|discriminate]).
Qed.

(** X10. Whatever [connect] has acquired, the destructor releases: after
    [connect] and then the destructor, on the success path and on both
    failure paths, the open connections are those before [connect] and
    [db] is null. *)
Theorem destructor_releases_what_connect_acquired :
  forall (dbPath : string) (a : Answers) (self : DatabaseManager) (w : World),
    wf_world w ->
    let '(_, self', w') := connect dbPath a self w in
    connections (snd (destroy self' w')) = connections w
    /\ db (fst (destroy self' w')) = None.
Proof.
  intros dbPath a self w [Hc _]. rewrite connect_cases. cbv zeta.
  destruct (open_rc a =? SQLITE_OK).
  - destruct (exec_rc a =? SQLITE_OK); unfold destroy; simpl;
      rewrite Nat.eqb_refl; simpl; (split; [apply filter_fresh; exact Hc|reflexivity]).
  - destruct (open_allocates a); unfold destroy; simpl.
    + rewrite Nat.eqb_refl. simpl. split; [apply filter_fresh; exact Hc|reflexivity].
    + split; reflexivity.
Qed.

Lemma destructor_releases_what_connect_acquired_witness :
  let '(_, self', w') :=
    connect "data/syspulse.db" (schema_fails SQLITE_BUSY)
            DatabaseManager_new new_world in
  connections (snd (destroy self' w')) = connections new_world
  /\ db (fst (destroy self' w')) = None.
Proof.
  apply (destructor_releases_what_connect_acquired
           "data/syspulse.db" (schema_fails SQLITE_BUSY)
           DatabaseManager_new new_world).
  split; constructor.
Defined.

Lemma is_open_after_close (h h' : sqlite3) (w : World) :
  h' <> h -> is_open h' (sqlite3_close h w) = is_open h' w.
Proof.
  intros Hne. unfold is_open, sqlite3_close. simpl.
  induction (connections w) as [|x l IH]; [reflexivity|]. simpl.
  destruct (Nat.eqb_spec h x) as [<-|Hx]; simpl.
  - destruct (Nat.eqb_spec h' h) as [E|_]; [contradiction|]. exact IH.
  - rewrite IH. reflexivity.
Qed.

(** X11. The destructor closes the connection of the store and nothing
    else: afterwards [db] is null and the handle is no longer open, every
    other connection is as before, and the rows, the schema and the
    prepared statements are untouched.  On a store without handle it calls
    nothing: the world is as before. *)
Theorem destructor_closes_only_its_connection :
  forall (self : DatabaseManager) (w : World),
    db (fst (destroy self w)) = None
    /\ (forall h, db self = Some h ->
          is_open h (snd (destroy self w)) = false
          /\ forall h', h' <> h ->
               is_open h' (snd (destroy self w)) = is_open h' w)
    /\ (db self = None -> snd (destroy self w) = w)
    /\ metrics (snd (destroy self w)) = metrics w
    /\ has_metrics (snd (destroy self w)) = has_metrics w
    /\ statements (snd (destroy self w)) = statements w.
Proof.
  intros [[h|]] w; unfold destroy; simpl.
  - split; [reflexivity|]. split.
    + intros h0 [= <-]. split.
      * unfold is_open. simpl. apply existsb_filter_out.
      * intros h' Hne. apply is_open_after_close. exact Hne.
    + split; [discriminate|]. repeat split.
  - split; [reflexivity|]. split; [discriminate|]. repeat split.
Qed.

(** What [insertMetric] does to the world. *)
Lemma insertMetric_effect (m : Monitor.Metric) (a : Answers)
    (self : DatabaseManager) (w : World) :
  wf_world w ->
  let '(ok, w') := insertMetric m a self w in
  connections w' = connections w
  /\ statements w' = statements w
  /\ messages w' = messages w
  /\ has_metrics w' = has_metrics w
  /\ wf_world w'
  /\ metrics w' = metrics w ++ (if ok then [row_of m] else [])
  /\ (ok = true <->
      (exists h, db self = Some h /\ is_open h w = true)
      /\ has_metrics w = true
      /\ prepare_rc a = SQLITE_OK
      /\ Double.is_nan (Monitor.value m) = false
      /\ step_rc a = SQLITE_DONE).
Proof.
  intros Hwf. pose proof Hwf as [Hc Hs].
  assert (Hnil : forall l : list Row, l = l ++ [])
    by (intros; rewrite app_nil_r; reflexivity).
  destruct self as [[h|]]; unfold insertMetric; simpl.
  2:{ do 6 (split; [first [reflexivity|assumption|apply Hnil]|]).
      split; [discriminate|]. intros ((h & Hh & _) & _). discriminate. }
  unfold sqlite3_prepare_v2.
  destruct (is_open h w) eqn:Hopen; simpl.
  2:{ do 6 (split; [first [reflexivity|assumption|apply Hnil]|]).
      split; [discriminate|]. intros ((h' & Hh' & Hh) & _).
      injection Hh' as <-. congruence. }
  destruct (has_metrics w) eqn:Htab; simpl.
  2:{ do 6 (split; [first [reflexivity|assumption|apply Hnil]|]).
      split; [discriminate|]. intros (_ & Hf & _). discriminate. }
  destruct (Z.eqb_spec (prepare_rc a) SQLITE_OK) as [Hp|Hp]; simpl.
  2:{ pose proof Hp as Hp'. apply Z.eqb_neq in Hp'. rewrite Hp'.
      do 6 (split; [first [reflexivity|assumption|apply Hnil]|]).
      split; [discriminate|]. intros (_ & _ & Hf & _). contradiction. }
  unfold sqlite3_step, row_of_stmt. simpl. rewrite Nat.eqb_refl. simpl.
  assert (Hfin : filter (fun i => negb (Nat.eqb (next_statement w) i)) (statements w)
                 = statements w) by (apply filter_fresh; exact Hs).
  assert (Hs' : Forall (fun i => (i < S (next_statement w))%nat) (statements w)).
  { eapply Forall_impl; [|exact Hs]. simpl. intros; lia. }
  destruct (Z.eqb_spec (step_rc a) SQLITE_DONE) as [Hd|Hd]; simpl.
  - destruct (Double.is_nan (Monitor.value m)) eqn:Hn; simpl.
    + rewrite Nat.eqb_refl. simpl. rewrite Hfin.
      do 6 (split; [first [reflexivity|assumption|apply Hnil
                          |unfold wf_world; simpl; rewrite Nat.eqb_refl; simpl;
                           rewrite Hfin; split; assumption]|]).
      split; [discriminate|]. intros (_ & _ & _ & Hf & _). discriminate.
    + rewrite Nat.eqb_refl. simpl. rewrite Hfin.
      do 6 (split; [first [reflexivity|assumption
                          |unfold wf_world; simpl; rewrite Nat.eqb_refl; simpl;
                           rewrite Hfin; split; assumption]|]).
      split; [intros _|reflexivity].
      split; [exists h; split; [reflexivity|assumption]|].
      repeat split; assumption.
  - pose proof Hd as Hd'. apply Z.eqb_neq in Hd'. rewrite Hd'. simpl.
    rewrite Nat.eqb_refl. simpl. rewrite Hfin.
    do 6 (split; [first [reflexivity|assumption|apply Hnil
                        |unfold wf_world; simpl; rewrite Nat.eqb_refl; simpl;
                         rewrite Hfin; split; assumption]|]).
    split; [discriminate|]. intros (_ & _ & _ & _ & Hf). contradiction.
Qed.

(** X12. [insertMetric] touches nothing but the rows: on every path the open
    connections, the schema and the error messages are as before, and the
    statement it has prepared is finalized. *)
Theorem insertMetric_touches_only_the_rows :
  forall (m : Monitor.Metric) (a : Answers) (self : DatabaseManager)
         (w : World),
    wf_world w ->
    let '(_, w') := insertMetric m a self w in
    connections w' = connections w
    /\ statements w' = statements w
    /\ messages w' = messages w
    /\ has_metrics w' = has_metrics w.
Proof.
  intros m a self w Hwf. pose proof (insertMetric_effect m a self w Hwf) as H.
  destruct (insertMetric m a self w) as [ok w'].
  destruct H as (H1 & H2 & H3 & H4 & _). repeat split; assumption.
Qed.

Lemma insertMetric_touches_only_the_rows_witness :
  let '(_, w') :=
    insertMetric sample all_ok {| db := Some 1%nat |}
      {| connections := [1%nat]; next_connection := 2%nat;
         statements := []; next_statement := 1%nat; messages := 0%nat;
         has_metrics := true; metrics := [] |} in
  connections w' = [1%nat] /\ statements w' = [] /\ messages w' = 0%nat
  /\ has_metrics w' = true.
Proof.
  apply (insertMetric_touches_only_the_rows sample all_ok {| db := Some 1%nat |}
           {| connections := [1%nat]; next_connection := 2%nat;
              statements := []; next_statement := 1%nat; messages := 0%nat;
              has_metrics := true; metrics := [] |}).
  split; repeat constructor.
Defined.

(** A text without zero byte is bound in full. *)
Lemma c_text_c_str (t : string) : has_nul t = false -> c_text (c_str t) = t.
Proof.
  unfold c_str. induction t as [|c t IH]; simpl; [reflexivity|].
  destruct (Ascii.eqb c NUL); simpl; [discriminate|].
  intros H. rewrite (IH H). reflexivity.
Qed.

(** A text is bound as far as its first zero byte, whatever follows. *)
Lemma c_text_c_str_cut (t u : string) :
  has_nul t = false -> c_text (c_str (t ++ String NUL u)) = t.
Proof.
  unfold c_str. induction t as [|c t IH]; simpl; [reflexivity|].
  destruct (Ascii.eqb c NUL); simpl; [discriminate|].
  intros H. rewrite (IH H). reflexivity.
Qed.

(** What the [REAL] column gives back compares equal to what was stored,
    and is the same number unless that was [-0.0]. *)
Lemma real_column_spec (x : Double.double) :
  Double.is_nan x = false ->
  Double.eqb (real_column x) x = true
  /\ (x <> S754_zero true -> real_column x = x).
Proof.
  intros Hn. split.
  - destruct x as [[]|s| |s m e]; try reflexivity; try discriminate;
      apply DoubleMore.eqb_refl; reflexivity.
  - destruct x as [[]|s| |s m e]; try reflexivity. intros H. contradiction H.
    reflexivity.
Qed.

(** X13. After a [connect] that succeeds, an [insertMetric] of a metric
    whose texts have no zero byte and whose value is a number, with the
    statement prepared and executed, returns [true]; the row then found at
    the end of the table carries the three texts and the timestamp of the
    metric, and a value that compares equal to the metric's and is the
    same number unless that is [-0.0]. *)
Theorem insert_after_connect_round_trip :
  forall (dbPath : string) (m : Monitor.Metric) (a1 a2 : Answers) (w : World),
    wf_world w ->
    open_rc a1 = SQLITE_OK -> exec_rc a1 = SQLITE_OK ->
    prepare_rc a2 = SQLITE_OK -> step_rc a2 = SQLITE_DONE ->
    has_nul (Monitor.component m) = false ->
    has_nul (Monitor.metric m) = false ->
    has_nul (Monitor.unit m) = false ->
    Double.is_nan (Monitor.value m) = false ->
    let '(ok, self, w1) := connect dbPath a1 DatabaseManager_new w in
    let '(ok2, w2) := insertMetric m a2 self w1 in
    ok = true /\ ok2 = true
    /\ (exists r,
          nth_error (metrics w2) (List.length (metrics w)) = Some r
          /\ row_component r = Monitor.component m
          /\ row_metric r = Monitor.metric m
          /\ row_unit r = Monitor.unit m
          /\ row_timestamp r = Monitor.timestamp m
          /\ Double.eqb (row_value r) (Monitor.value m) = true
          /\ (Monitor.value m <> S754_zero true ->
              row_value r = Monitor.value m))
    /\ List.length (metrics w2) = S (List.length (metrics w)).
Proof.
  intros dbPath m a1 a2 w [Hc Hs] Ho He Hp Hd Hn1 Hn2 Hn4 Hnan.
  rewrite connect_cases. cbv zeta. rewrite Ho, He. simpl.
  match goal with |- context [insertMetric m a2 ?s ?w1] =>
    pose proof (insertMetric_effect m a2 s w1) as H;
    destruct (insertMetric m a2 s w1) as [ok2 w2] end.
  assert (Hwf1 : wf_world
                   {| connections := next_connection w :: connections w;
                      next_connection := S (next_connection w);
                      statements := statements w;
                      next_statement := next_statement w;
                      messages := messages w;
                      has_metrics := true; metrics := metrics w |}).
  { split; simpl; [|exact Hs]. constructor; [lia|].
    eapply Forall_impl; [|exact Hc]. simpl. intros; lia. }
  destruct (H Hwf1) as (_ & _ & _ & _ & _ & Hrows & Hok). simpl in Hrows, Hok.
  assert (Hok2 : ok2 = true).
  { apply Hok. split; [|repeat split; assumption].
    eexists. split; [reflexivity|]. unfold is_open. simpl.
    rewrite Nat.eqb_refl. reflexivity. }
  subst ok2. rewrite Hrows. split; [reflexivity|]. split; [reflexivity|].
  split.
  - exists (row_of m). rewrite nth_error_app2 by lia. rewrite Nat.sub_diag.
    split; [reflexivity|]. unfold row_of. simpl.
    rewrite !c_text_c_str by assumption.
    destruct (real_column_spec _ Hnan) as [He1 He2].
    repeat split; assumption.
  - rewrite length_app. simpl. lia.
Qed.

Lemma insert_after_connect_round_trip_witness :
  let '(ok, self, w1) :=
    connect "data/syspulse.db" all_ok DatabaseManager_new new_world in
  let '(ok2, w2) := insertMetric sample all_ok self w1 in
  ok = true /\ ok2 = true
  /\ (exists r,
        nth_error (metrics w2) (List.length (metrics new_world)) = Some r
        /\ row_component r = Monitor.component sample
        /\ row_metric r = Monitor.metric sample
        /\ row_unit r = Monitor.unit sample
        /\ row_timestamp r = Monitor.timestamp sample
        /\ Double.eqb (row_value r) (Monitor.value sample) = true
        /\ (Monitor.value sample <> S754_zero true ->
            row_value r = Monitor.value sample))
  /\ List.length (metrics w2) = S (List.length (metrics new_world)).
Proof.
  apply (insert_after_connect_round_trip "data/syspulse.db" sample all_ok all_ok
           new_world); try reflexivity.
  split; constructor.
Defined.

End StoreMore.

(** ** The driver *)

Module MainSpec.
Import DoubleMore Win32 Monitor MonitorSpec Sqlite DbManager StoreSpec StoreMore Main.

Lemma getMetric_labels (now : Z) (os : option SystemTimes) (self : CpuMonitor)
    (m : Metric) :
  returned (getMetric now os self) = Some m ->
  component m = "CPU"%string /\ metric m = "Usage"%string
  /\ unit m = "%"%string /\ timestamp m = now.
Proof.
  unfold getMetric. destruct os as [r|]; [|discriminate].
  destruct (QuadPart (lastIdleTime self) =? 0); [discriminate|].
  destruct (totalSystem self r =? 0); intros [= <-]; repeat split.
Qed.

Lemma RamMonitor_getMetric_labels (now : Z) (os : option MEMORYSTATUSEX)
    (m : Metric) :
  RamMonitor_getMetric now os = Some m ->
  component m = "RAM"%string /\ metric m = "Usage"%string
  /\ unit m = "%"%string /\ timestamp m = now.
Proof.
  unfold RamMonitor_getMetric. destruct os; [|discriminate].
  intros [= <-]. repeat split.
Qed.

(** The rows after [insertMetric], with no assumption on the world. *)
Lemma insertMetric_rows (m : Metric) (a : Answers) (self : DatabaseManager)
    (w : World) :
  metrics (snd (insertMetric m a self w))
  = metrics w ++ (if fst (insertMetric m a self w) then [row_of m] else []).
Proof.
  destruct self as [[h|]]; unfold insertMetric; simpl;
    [|rewrite app_nil_r; reflexivity].
  unfold sqlite3_prepare_v2.
  destruct (negb (is_open h w)); [simpl; rewrite app_nil_r; reflexivity|].
  simpl.
  destruct (negb (has_metrics w)); [simpl; rewrite app_nil_r; reflexivity|].
  destruct (prepare_rc a =? SQLITE_OK) eqn:Hp; simpl.
  2:{ rewrite Hp. simpl. rewrite app_nil_r. reflexivity. }
  unfold sqlite3_step, row_of_stmt. simpl. rewrite Nat.eqb_refl. simpl.
  destruct (step_rc a =? SQLITE_DONE) eqn:Hd; simpl.
  - destruct (Double.is_nan (value m)); simpl; [|reflexivity].
    rewrite app_nil_r. reflexivity.
  - rewrite Hd. simpl. rewrite app_nil_r. reflexivity.
Qed.

Lemma iteration_rows (t : Tick) (db : DatabaseManager) (monitor : CpuMonitor)
    (w : World) :
  fst (iteration t db monitor w)
  = after (getMetric (cpu_clock t) (cpu_os t) monitor)
  /\ exists added,
      metrics (snd (iteration t db monitor w)) = metrics w ++ added
      /\ (List.length added <= 2)%nat
      /\ Forall usage_row added
      /\ (returned (getMetric (cpu_clock t) (cpu_os t) monitor) = None ->
          added = [])
      /\ (ram_os t = None -> added = []).
Proof.
  unfold iteration.
  destruct (returned (getMetric (cpu_clock t) (cpu_os t) monitor))
    as [cpuMetric|] eqn:Hcpu.
  2:{ split; [reflexivity|]. exists []. rewrite app_nil_r.
      repeat split; auto. }
  destruct (RamMonitor_getMetric (ram_clock t) (ram_os t))
    as [ramMetric|] eqn:Hram.
  2:{ split; [reflexivity|]. exists []. rewrite app_nil_r.
      repeat split; auto. }
  pose proof (insertMetric_rows cpuMetric (cpu_answers t) db w) as H1.
  destruct (insertMetric cpuMetric (cpu_answers t) db w) as [ok1 w1].
  pose proof (insertMetric_rows ramMetric (ram_answers t) db w1) as H2.
  destruct (insertMetric ramMetric (ram_answers t) db w1) as [ok2 w2].
  simpl in *. split; [reflexivity|].
  destruct (getMetric_labels _ _ _ _ Hcpu) as (Hc1 & Hc2 & Hc3 & _).
  destruct (RamMonitor_getMetric_labels _ _ _ Hram) as (Hr1 & Hr2 & Hr3 & _).
  assert (Ucpu : usage_row (row_of cpuMetric)).
  { unfold usage_row, row_of. simpl. rewrite Hc1, Hc2, Hc3. simpl. auto. }
  assert (Uram : usage_row (row_of ramMetric)).
  { unfold usage_row, row_of. simpl. rewrite Hr1, Hr2, Hr3. simpl. auto. }
  exists ((if ok1 then [row_of cpuMetric] else [])
          ++ (if ok2 then [row_of ramMetric] else [])).
  rewrite H2, H1, <- app_assoc.
  split; [reflexivity|].
  split; [destruct ok1, ok2; simpl; lia|].
  split; [apply Forall_app; split; [destruct ok1|destruct ok2];
          repeat first [apply Forall_nil|apply Forall_cons; [assumption|]]|].
  split; [discriminate|].
  intros Hn. unfold RamMonitor_getMetric in Hram. rewrite Hn in Hram.
  discriminate.
Qed.

(** X14. The loop only appends: after any number of iterations the rows that
    were in the table are still there, in order, followed by at most two
    new rows per iteration, each a CPU or RAM usage row in percent. *)
Theorem loop_only_appends_usage_rows :
  forall (ts : list Tick) (db : DatabaseManager) (monitor : CpuMonitor)
         (w : World),
    exists added,
      metrics (snd (loop ts db monitor w)) = metrics w ++ added
      /\ (List.length added <= 2 * List.length ts)%nat
      /\ Forall usage_row added.
Proof.
  induction ts as [|t rest IH]; intros db monitor w.
  - exists []. simpl. rewrite app_nil_r. repeat split; auto.
  - simpl loop.
    destruct (iteration_rows t db monitor w) as (_ & a1 & H1 & L1 & U1 & _).
    destruct (iteration t db monitor w) as [monitor' w'].
    simpl in H1.
    destruct (IH db monitor' w') as (a2 & H2 & L2 & U2).
    exists (a1 ++ a2). rewrite H2, H1, <- app_assoc.
    split; [reflexivity|]. split.
    + rewrite length_app. simpl List.length. lia.
    + apply Forall_app. split; assumption.
Qed.

(** X15. The first iteration of [main] stores nothing, whatever the samplers
    read and whatever SQLite answers: the CPU sampler has no baseline yet,
    and the RAM metric of that iteration is dropped with it. *)
Theorem first_iteration_stores_nothing :
  forall (a : Answers) (t : Tick) (w : World),
    metrics (snd (main a [t] w)) = metrics w.
Proof.
  intros a t w. unfold main. rewrite connect_cases. cbv zeta.
  destruct (open_rc a =? SQLITE_OK).
  - destruct (exec_rc a =? SQLITE_OK); simpl negb; cbv iota.
    + simpl loop.
      destruct (iteration_rows t {| db := Some (next_connection w) |}
                  CpuMonitor_new
                  {| connections := next_connection w :: connections w;
                     next_connection := S (next_connection w);
                     statements := statements w;
                     next_statement := next_statement w;
                     messages := messages w;
                     has_metrics := true; metrics := metrics w |})
        as (_ & added & H & _ & _ & Hnone & _).
      destruct (iteration t _ CpuMonitor_new _) as [monitor' w'].
      simpl in *. rewrite H, Hnone; [apply app_nil_r|].
      unfold getMetric. destruct (cpu_os t); reflexivity.
    + reflexivity.
  - destruct (open_allocates a); reflexivity.
Qed.

(** X16. When [connect] fails, [main] returns 1 without entering the loop; the
    rows are untouched and, the destructor having run, no connection is
    left open.  Otherwise [main] does not return. *)
Theorem main_returns_1_when_connect_fails :
  forall (a : Answers) (ts : list Tick) (w : World),
    wf_world w ->
    (fst (main a ts w) = Some 1
     <-> ~ (open_rc a = SQLITE_OK /\ exec_rc a = SQLITE_OK))
    /\ (fst (main a ts w) = Some 1 ->
        metrics (snd (main a ts w)) = metrics w
        /\ connections (snd (main a ts w)) = connections w)
    /\ (fst (main a ts w) = Some 1 \/ fst (main a ts w) = None).
Proof.
  intros a ts w [Hc _]. unfold main. rewrite connect_cases. cbv zeta.
  destruct (Z.eqb_spec (open_rc a) SQLITE_OK) as [Ho|Ho].
  - destruct (Z.eqb_spec (exec_rc a) SQLITE_OK) as [He|He]; simpl negb; cbv iota.
    + simpl fst. split; [split; [discriminate|tauto]|].
      split; [discriminate|right; reflexivity].
    + simpl fst. split; [split; [tauto|reflexivity]|].
      split; [|left; reflexivity]. intros _. unfold destroy. simpl.
      rewrite Nat.eqb_refl. simpl. split; [reflexivity|].
      apply filter_fresh. exact Hc.
  - destruct (open_allocates a); simpl negb; cbv iota; simpl fst.
    + split; [split; [tauto|reflexivity]|]. split; [|left; reflexivity].
      intros _. unfold destroy. simpl. rewrite Nat.eqb_refl. simpl.
      split; [reflexivity|]. apply filter_fresh. exact Hc.
    + split; [split; [tauto|reflexivity]|]. split; [|left; reflexivity].
      intros _. split; reflexivity.
Qed.

Lemma main_returns_1_when_connect_fails_witness :
  fst (main (schema_fails SQLITE_BUSY) [] new_world) = Some 1
  /\ connections (snd (main (schema_fails SQLITE_BUSY) [] new_world)) = [].
Proof.
  assert (Hwf : wf_world new_world) by (split; constructor).
  destruct (main_returns_1_when_connect_fails (schema_fails SQLITE_BUSY) []
              new_world Hwf) as (H1 & H2 & _).
  assert (H : fst (main (schema_fails SQLITE_BUSY) [] new_world) = Some 1).
  { apply H1. intros [_ He]. vm_compute in He. discriminate. }
  split; [exact H|]. exact (proj2 (H2 H)).
Defined.

Lemma is_open_same (h : sqlite3) (w w' : World) :
  connections w' = connections w -> is_open h w' = is_open h w.
Proof. unfold is_open. intros ->. reflexivity. Qed.

Lemma smooth_insert (m : Metric) (a : Answers) (h : sqlite3) (w : World) :
  wf_world w -> is_open h w = true -> has_metrics w = true ->
  prepare_rc a = SQLITE_OK -> step_rc a = SQLITE_DONE ->
  Double.is_nan (value m) = false ->
  let w' := snd (insertMetric m a {| db := Some h |} w) in
  wf_world w' /\ is_open h w' = true /\ has_metrics w' = true
  /\ List.length (metrics w') = S (List.length (metrics w)).
Proof.
  intros Hwf Ho Ht Hp Hd Hnan.
  pose proof (insertMetric_effect m a {| db := Some h |} w Hwf) as H.
  destruct (insertMetric m a {| db := Some h |} w) as [ok w'].
  destruct H as (Hc & _ & _ & Hm & Hwf' & Hrows & Hok). simpl.
  assert (ok = true).
  { apply Hok. split; [exists h; split; [reflexivity|assumption]|].
    repeat split; assumption. }
  subst ok. split; [assumption|].
  split; [rewrite (is_open_same h w w' Hc); assumption|].
  split; [congruence|]. rewrite Hrows, length_app. simpl. lia.
Qed.

Lemma loop_smooth (ts : list Tick) (h : sqlite3) :
  Forall smooth ts ->
  forall (monitor : CpuMonitor) (w : World),
    wf_world w -> is_open h w = true -> has_metrics w = true ->
    QuadPart (lastIdleTime monitor) <> 0 ->
    List.length (metrics (snd (loop ts {| db := Some h |} monitor w)))
    = (List.length (metrics w) + 2 * List.length ts)%nat.
Proof.
  induction 1 as [|t rest Ht _ IH]; intros monitor w Hwf Ho Htab Hb.
  - simpl. lia.
  - destruct Ht as ((r & Hcpu & Hidle) & (memInfo & Hram) & Hp1 & Hd1 & Hp2 & Hd2).
    simpl loop. unfold iteration. rewrite Hcpu, Hram.
    assert (Hsome : exists m, returned (getMetric (cpu_clock t) (Some r) monitor)
                              = Some m
                              /\ Double.is_nan (value m) = false).
    { unfold getMetric. pose proof Hb as Hb'. apply Z.eqb_neq in Hb'. rewrite Hb'.
      destruct (Z.eqb_spec (totalSystem monitor r) 0) as [H0|H0];
        eexists; (split; [reflexivity|]); simpl; [reflexivity|].
      apply usage_not_nan.
      pose proof (wrap64_range (deltaKernel monitor r + deltaUser monitor r)).
      unfold totalSystem in *. lia. }
    destruct Hsome as (cpuMetric & Hm & Hnan). rewrite Hm.
    simpl RamMonitor_getMetric. cbv iota.
    destruct (smooth_insert cpuMetric (cpu_answers t) h w Hwf Ho Htab Hp1 Hd1
                Hnan)
      as (Hwf1 & Ho1 & Ht1 & Hl1).
    destruct (insertMetric cpuMetric (cpu_answers t) {| db := Some h |} w)
      as [ok1 w1]. simpl in Hwf1, Ho1, Ht1, Hl1.
    match goal with |- context [insertMetric ?rm (ram_answers t) _ w1] =>
      destruct (smooth_insert rm (ram_answers t) h w1 Hwf1 Ho1 Ht1 Hp2 Hd2
                  (of_Z_not_nan (dwMemoryLoad memInfo)))
        as (Hwf2 & Ho2 & Ht2 & Hl2);
      destruct (insertMetric rm (ram_answers t) {| db := Some h |} w1)
        as [ok2 w2] end.
    simpl in Hwf2, Ho2, Ht2, Hl2.
    rewrite getMetric_after_success.
    rewrite (IH (baseline_of r) w2 Hwf2 Ho2 Ht2 Hidle).
    rewrite Hl2, Hl1. simpl List.length. lia.
Qed.

(** X17. When [connect] succeeds and, in every iteration, both samplers obtain a
    reading (with a non-zero idle count) and both inserts succeed, [main]
    has stored two rows for every iteration but the first. *)
Theorem main_stores_two_rows_per_iteration_but_the_first :
  forall (a : Answers) (ts : list Tick) (w : World),
    wf_world w ->
    open_rc a = SQLITE_OK -> exec_rc a = SQLITE_OK ->
    Forall smooth ts ->
    List.length (metrics (snd (main a ts w)))
    = (List.length (metrics w) + 2 * pred (List.length ts))%nat.
Proof.
  intros a ts w [Hc Hs] Ho He Hts.
  unfold main. rewrite connect_cases. cbv zeta. rewrite Ho, He. simpl negb.
  cbv iota. simpl snd at 1.
  destruct Hts as [|t rest Ht Hrest]; [simpl; lia|].
  destruct Ht as ((r & Hcpu & Hidle) & _).
  simpl loop. unfold iteration at 1. rewrite Hcpu.
  rewrite (getMetric_unset (cpu_clock t) r CpuMonitor_new) by reflexivity.
  simpl returned. cbv iota. simpl after.
  rewrite (loop_smooth rest (next_connection w) Hrest).
  - simpl. lia.
  - split; simpl; [|exact Hs]. constructor; [lia|].
    eapply Forall_impl; [|exact Hc]. simpl. intros; lia.
  - unfold is_open. simpl. rewrite Nat.eqb_refl. reflexivity.
  - reflexivity.
  - exact Hidle.
Qed.

Lemma main_stores_two_rows_per_iteration_but_the_first_witness :
  List.length
    (metrics (snd (main all_ok [calm 100 200 100 40; calm 150 240 120 41;
                               calm 190 300 130 41] new_world))) = 4%nat.
Proof.
  rewrite main_stores_two_rows_per_iteration_but_the_first.
  - reflexivity.
  - split; constructor.
  - reflexivity.
  - reflexivity.
  - repeat constructor; try (eexists; split; [reflexivity|vm_compute; discriminate]);
      eexists; reflexivity.
Defined.

End MainSpec.
